(** * RLM Runtime TypeScript SDK: import check, profiles, sessions, dispatch loop

  A shallow embedding of [npm-package/src/index.ts] (the [@rlm/runtime]
  SDK) together with models of the runtime operations the SDK's types
  describe (sandboxed execution, session contexts, the agent loop). *)

From Stdlib Require Import Ascii String List Bool Arith Lia.
From stdpp Require Import base option list strings gmap.

Import ListNotations.
Local Open Scope string_scope.
Local Open Scope list_scope.
Local Open Scope nat_scope.

(** ** JavaScript string and array primitives used by the SDK *)

Module Js.

(** [Array.prototype.includes] on an array of strings: SameValueZero on
    strings is plain string equality. *)
Definition includes (arr : list string) (x : string) : bool :=
  existsb (String.eqb x) arr.

(** [String.prototype.split] with a one-character separator.  The result
    is never the empty array: splitting the empty string gives [[""]]. *)
Fixpoint split (sep : ascii) (s : string) : list string :=
  match s with
  | EmptyString => [EmptyString]
  | String c s' =>
      if Ascii.eqb c sep then EmptyString :: split sep s'
      else match split sep s' with
           | [] => [String c EmptyString]
           | p :: ps => String c p :: ps
           end
  end.

(** [Array.prototype.join]. *)
Fixpoint join (sep : string) (parts : list string) : string :=
  match parts with
  | [] => EmptyString
  | [p] => p
  | p :: ps => p +:+ sep +:+ join sep ps
  end.

(** [Array.prototype.slice(0, n)]. *)
Definition slice0 {A} (n : nat) (arr : list A) : list A := firstn n arr.

End Js.

(** ** Allowed / blocked imports (sandboxed mode) *)

Definition ALLOWED_IMPORTS : list string :=
[ "json"; "re"; "math"; "datetime"; "time"; "uuid";
  "hashlib"; "base64"; "string"; "textwrap";
  "collections"; "itertools"; "functools"; "operator";
  "dataclasses"; "typing"; "enum"; "copy";
  "csv"; "statistics"; "decimal"; "fractions";
  "pathlib"; "posixpath"; "ntpath";
  "urllib.parse";
  "difflib"; "unicodedata" ].

Definition BLOCKED_IMPORTS : list string :=
[ "os"; "sys"; "subprocess"; "shutil"; "platform"; "signal"; "resource";
  "socket"; "ssl"; "requests"; "urllib.request"; "http";
  "pickle"; "shelve"; "marshal";
  "sqlite3";
  "ctypes"; "cffi"; "mmap";
  "multiprocessing"; "threading"; "concurrent"; "asyncio";
  "importlib"; "builtins"; "eval"; "exec"; "compile"; "code";
  "tempfile"; "fileinput"; "glob"; "fnmatch";
  "pdb"; "bdb"; "trace"; "traceback"; "inspect"; "dis"; "ast";
  "atexit"; "gc" ].

Section ImportCheck.

(** The walk is written over arbitrary name lists; [isImportAllowed]
    instantiates it with the two exported constants. *)
Variables (blocked allowed : list string).

(** The body of the [for] loop of [isImportAllowed], over the remaining
    values of the index [i]. *)
Fixpoint parent_walk (parts : list string) (indices : list nat) : bool :=
  match indices with
  | [] => false
  | i :: rest =>
      let parent := Js.join "." (Js.slice0 (i + 1) parts) in
      if Js.includes blocked parent then false
      else if Js.includes allowed parent then true
      else parent_walk parts rest
  end.

Definition import_allowed_in (moduleName : string) : bool :=
  if Js.includes blocked moduleName then false
  else if Js.includes allowed moduleName then true
  else
    let parts := Js.split "." moduleName in
    parent_walk parts (seq 0 (length parts)).

End ImportCheck.

(** [isImportAllowed]: check if a module is allowed in sandboxed mode. *)
Definition isImportAllowed (moduleName : string) : bool :=
import_allowed_in BLOCKED_IMPORTS ALLOWED_IMPORTS moduleName.

(** ** Execution profiles *)

(** [ExecutionProfile = 'quick' | 'default' | 'analysis' | 'extended']. *)
Inductive ExecutionProfile : Type := Quick | Default | Analysis | Extended.

(** The string literal each member of the union stands for; it is the
    property name used to index [EXECUTION_PROFILES]. *)
Definition profile_name (p : ExecutionProfile) : string :=
  match p with
  | Quick => "quick"
  | Default => "default"
  | Analysis => "analysis"
  | Extended => "extended"
  end.

Record ProfileConfig : Type := mkProfileConfig {
  timeout : nat;           (* seconds *)
  memory : string;         (* container-style size: digits and a unit letter *)
  description : string
}.

(** The object literal [EXECUTION_PROFILES], keyed by property name. *)
Definition EXECUTION_PROFILES : gmap string ProfileConfig :=
  <["extended" := mkProfileConfig 300 "4g"
      "Long-running tasks: batch processing, extensive analysis"]>
  (<["analysis" := mkProfileConfig 120 "2g"
      "Heavy computation: large datasets, complex algorithms"]>
  (<["default" := mkProfileConfig 30 "512m"
      "Standard operations: data processing, algorithms"]>
  (<["quick" := mkProfileConfig 5 "128m"
      "Fast operations: simple math, string manipulation"]> ∅))).

(** [getProfile]: property access [EXECUTION_PROFILES[name]]; a missing
    property would read as [undefined], here [None]. *)
Definition getProfile (name : ExecutionProfile) : option ProfileConfig :=
  EXECUTION_PROFILES !! profile_name name.

(** Reading of a memory string: decimal digits followed by the unit letter
    [m] (megabytes) or [g] (gigabytes, 1024 megabytes). *)
Definition digit_value (c : ascii) : option nat :=
  let n := nat_of_ascii c in
  if (48 <=? n) && (n <=? 57) then Some (n - 48) else None.

Fixpoint memory_megabytes_from (acc : nat) (seen : bool) (s : string) : option nat :=
  match s with
  | EmptyString => None
  | String c rest =>
      match digit_value c with
      | Some d => memory_megabytes_from (10 * acc + d) true rest
      | None =>
          if negb seen then None
          else if String.eqb s "m" then Some acc
          else if String.eqb s "g" then Some (1024 * acc)
          else None
      end
  end.

Definition memory_megabytes (s : string) : option nat :=
  memory_megabytes_from 0 false s.

(** ** Trust levels *)

(** [TrustLevel = 'sandboxed' | 'docker' | 'local']. *)
Inductive TrustLevel : Type := sandboxed | docker | local.

Definition trust_level_literal (t : TrustLevel) : string :=
  match t with
  | sandboxed => "sandboxed"
  | docker => "docker"
  | local => "local"
  end.

(** The members of the union type, as the strings a value of the type can
    be at run time. *)
Definition TRUST_LEVELS : list string :=
  map trust_level_literal [sandboxed; docker; local].

(** Whether a string is a value of type [TrustLevel]. *)
Definition is_TrustLevel (s : string) : bool := Js.includes TRUST_LEVELS s.

(** The value set as the data-model section of the specification words it;
    kept apart from [TRUST_LEVELS] to compare the two. *)
Definition SPEC_TRUST_LEVELS : list string := ["sandboxed"; "container"; "local"].

(** ** MCP tool parameter and result types *)

Module ExecutePythonParams.
Record t : Type := mk {
  code : string;
  timeout : option nat;              (* seconds; overrides profile; max 300 *)
  profile : option ExecutionProfile;
  session_id : option string         (* default: 'default' *)
}.
End ExecutePythonParams.

Module GetREPLContextParams.
Record t : Type := mk { session_id : option string }.
End GetREPLContextParams.

Module SetREPLContextParams.
Record t : Type := mk {
  key : string;
  value : string;                    (* JSON-encoded value to store *)
  session_id : option string
}.
End SetREPLContextParams.

Module ClearREPLContextParams.
Record t : Type := mk { session_id : option string }.
End ClearREPLContextParams.

Module DestroySessionParams.
Record t : Type := mk { session_id : string }.
End DestroySessionParams.

Module REPLResult.
Record t : Type := mk {
  output : string;
  error : option string;             (* [string | null] *)
  execution_time_ms : nat;
  truncated : bool;
  memory_peak_bytes : option nat;
  cpu_time_ms : option nat;
  success : bool
}.
End REPLResult.

Module SessionInfo.
Record t : Type := mk {
  id : string;
  trust_level : TrustLevel;
  created_at : nat;
  last_access : nat;
  age_seconds : nat;
  idle_seconds : nat;
  context_keys : list string
}.
End SessionInfo.

(** [AgentStatus = 'running' | 'completed' | 'error' | 'cancelled']. *)
Inductive AgentStatus : Type := running | completed | error | cancelled.

Module AgentResult.
Record t : Type := mk {
  answer : string;
  answer_source : string;            (* 'final' | 'final_var' | 'forced' *)
  iterations : nat;
  total_tokens : nat;
  total_cost : nat;                  (* in millionths of a USD *)
  duration_ms : nat;
  forced_termination : bool;
  run_id : string;
  success : bool
}.
End AgentResult.

(** The session a tool call addresses when [session_id] is left out. *)
Definition DEFAULT_SESSION_ID : string := "default".

Definition resolve_session (sid : option string) : string :=
  match sid with
  | Some s => s
  | None => DEFAULT_SESSION_ID
  end.

(** [DEFAULT_CONFIG.trust_level]. *)
Definition DEFAULT_TRUST_LEVEL : TrustLevel := sandboxed.

(** ** Session manager *)

(** A session context: variable name to serialized value. *)
Abbreviation Context := (gmap string string).

Module Session.
Record t : Type := mk {
  trust_level : TrustLevel;
  context : Context;
  created_at : nat;
  last_access : nat
}.
End Session.

Abbreviation SessionTable := (gmap string Session.t).

Module SessionManager.

(** The session manager itself (the Python server's session table) is not
    part of the SDK sources; its operations follow the specification's
    session-manager section.  [now] is the clock reading of the call. *)

Definition touch (now : nat) (s : Session.t) : Session.t :=
  Session.mk (Session.trust_level s) (Session.context s) (Session.created_at s) now.

Definition with_context (ctx : Context) (s : Session.t) : Session.t :=
  Session.mk (Session.trust_level s) ctx (Session.created_at s) (Session.last_access s).

(** Modelled from the spec: [get_or_create(id, trust_level)], which is
    missing from the sources; an unknown id gets a fresh session with an
    empty context, a known one is returned with its access time updated. *)
Definition get_or_create (id : string) (level : TrustLevel) (now : nat)
    (tbl : SessionTable) : Session.t * SessionTable :=
  match tbl !! id with
  | Some s => let s' := touch now s in (s', <[id := s']> tbl)
  | None => let s := Session.mk level ∅ now now in (s, <[id := s]> tbl)
  end.

(** Modelled from the spec: [get_context(id)], missing from the sources;
    returns the session's mapping, creating the session lazily with the
    default trust level. *)
Definition get_context (id : string) (now : nat) (tbl : SessionTable)
    : Context * SessionTable :=
  let '(s, tbl') := get_or_create id DEFAULT_TRUST_LEVEL now tbl in
  (Session.context s, tbl').

(** Modelled from the spec: [set_context(id, key, value)], missing from the
    sources; the value is stored as received. *)
Definition set_context (id key value : string) (now : nat) (tbl : SessionTable)
    : SessionTable :=
  let '(s, tbl') := get_or_create id DEFAULT_TRUST_LEVEL now tbl in
  <[id := with_context (<[key := value]> (Session.context s)) s]> tbl'.

(** Modelled from the spec: [clear_context(id)], missing from the sources;
    discards every key of that session. *)
Definition clear_context (id : string) (now : nat) (tbl : SessionTable)
    : SessionTable :=
  let '(s, tbl') := get_or_create id DEFAULT_TRUST_LEVEL now tbl in
  <[id := with_context ∅ s]> tbl'.

(** Modelled from the spec: [destroy(id)], missing from the sources;
    discards the session and its context. *)
Definition destroy (id : string) (tbl : SessionTable) : SessionTable :=
  delete id tbl.

Definition summary (now : nat) (entry : string * Session.t) : SessionInfo.t :=
  let '(id, s) := entry in
  SessionInfo.mk id (Session.trust_level s)
    (Session.created_at s) (Session.last_access s)
    (now - Session.created_at s) (now - Session.last_access s)
    (map fst (map_to_list (Session.context s))).

(** Modelled from the spec: [list_sessions()], missing from the sources;
    one summary per session, with key names and no values. *)
Definition list_sessions (now : nat) (tbl : SessionTable) : list SessionInfo.t :=
  map (summary now) (map_to_list tbl).

(** The context a session holds, read without creating the session. *)
Definition context_of (id : string) (tbl : SessionTable) : option Context :=
  Session.context <$> tbl !! id.

End SessionManager.

(** The context tools, from their parameter records. *)
Definition get_repl_context (p : GetREPLContextParams.t) (now : nat)
    (tbl : SessionTable) : Context * SessionTable :=
  SessionManager.get_context
    (resolve_session (GetREPLContextParams.session_id p)) now tbl.

Definition set_repl_context (p : SetREPLContextParams.t) (now : nat)
    (tbl : SessionTable) : SessionTable :=
  SessionManager.set_context
    (resolve_session (SetREPLContextParams.session_id p))
    (SetREPLContextParams.key p) (SetREPLContextParams.value p) now tbl.

Definition clear_repl_context (p : ClearREPLContextParams.t) (now : nat)
    (tbl : SessionTable) : SessionTable :=
  SessionManager.clear_context
    (resolve_session (ClearREPLContextParams.session_id p)) now tbl.

Definition destroy_session (p : DestroySessionParams.t) (tbl : SessionTable)
    : SessionTable :=
  SessionManager.destroy (DestroySessionParams.session_id p) tbl.

(** ** Local restricted backend *)

(** Modelled from the spec: the error kinds of an execution (security
    violation, execution failure, timeout); the Python exception classes
    are missing from the sources. *)
Inductive ExecError : Type :=
  | SecurityViolation (detail : string)
  | ExecutionFailure (detail : string)
  | ExecutionTimeout.

(** Modelled from the spec: the error text reported in [REPLResult.error],
    which names the kind of the error first. *)
Definition describe (e : ExecError) : string :=
  match e with
  | SecurityViolation d => "SecurityViolation: " +:+ d
  | ExecutionFailure d => "ExecutionFailure: " +:+ d
  | ExecutionTimeout => "Timeout: execution exceeded its deadline"
  end.

(** Modelled from the spec: how a run of the restricted interpreter ended
    (the interpreter is missing from the sources): normally, with an
    exception of the code, on an attribute guard, or at the deadline. *)
Inductive Completion : Type :=
  | Finished
  | Raised (message : string)
  | GuardTripped (attribute : string)
  | DeadlineExpired.

(** What one run of the restricted interpreter reports back. *)
Record InterpreterRun : Type := mkInterpreterRun {
  printed : string;
  completion : Completion;
  context_after : Context;
  wall_ms : nat;
  cpu_ms : option nat;
  peak_bytes : option nat
}.

(** Modelled from the spec: the output ceiling of the local backend,
    documented as 100 KB; the constant is missing from the sources. *)
Definition OUTPUT_CEILING : nat := 100 * 1024.

(** Hard ceiling on a requested timeout, in seconds. *)
Definition MAX_TIMEOUT : nat := 300.

(** Modelled from the spec: the hard truncation of captured output, which
    is missing from the sources; output above the ceiling is cut to its
    first [OUTPUT_CEILING] bytes and flagged. *)
Definition truncate_at (ceiling : nat) (out : string) : string * bool :=
  if ceiling <? String.length out
  then (String.substring 0 ceiling out, true)
  else (out, false).

Definition truncate_output (out : string) : string * bool :=
  truncate_at OUTPUT_CEILING out.

Definition completion_error (c : Completion) : option ExecError :=
  match c with
  | Finished => None
  | Raised msg => Some (ExecutionFailure msg)
  | GuardTripped a =>
      Some (SecurityViolation ("access to attribute '" +:+ a +:+ "' is not allowed"))
  | DeadlineExpired => Some ExecutionTimeout
  end.

Definition import_violation (m : string) : ExecError :=
  SecurityViolation ("import of '" +:+ m +:+ "' is not allowed").

Definition is_null {A} (o : option A) : bool :=
  match o with
  | None => true
  | Some _ => false
  end.

(** The deadline of a request: its own timeout, else its profile's, else
    the default profile's; never above [MAX_TIMEOUT]. *)
Definition effective_timeout (p : ExecutePythonParams.t) : nat :=
  let prof := match ExecutePythonParams.profile p with
              | Some q => q
              | None => Default
              end in
  let requested := match ExecutePythonParams.timeout p with
                   | Some t => t
                   | None => match getProfile prof with
                             | Some c => timeout c
                             | None => MAX_TIMEOUT
                             end
                   end in
  Nat.min MAX_TIMEOUT requested.

Section LocalRestrictedBackend.

(** The module names the import statements of a piece of code mention, and
    the restricted interpreter: code, deadline in seconds and the session
    context in, captured output and new context out. *)
Variable imports_of : string -> list string.
Variable interp : string -> nat -> Context -> InterpreterRun.

(** The first import of the code that [isImportAllowed] rejects, if any. *)
Definition rejected_import (code : string) : option string :=
  find (fun m => negb (isImportAllowed m)) (imports_of code).

Definition security_result (m : string) : REPLResult.t :=
  REPLResult.mk "" (Some (describe (import_violation m))) 0 false None None false.

(** Modelled from the spec: the [execute] operation of the local restricted
    backend, which is missing from the sources.  The import check is applied
    to the code's imports before the interpreter is started; a rejected
    import ends the call with a security error and the context as it was.
    Otherwise the interpreter runs, its output is truncated at the ceiling
    and its way of ending decides [error] and [success]. *)
Definition execute_code (p : ExecutePythonParams.t) (ctx : Context)
    : REPLResult.t * Context :=
  match rejected_import (ExecutePythonParams.code p) with
  | Some m => (security_result m, ctx)
  | None =>
      let r := interp (ExecutePythonParams.code p) (effective_timeout p) ctx in
      let '(out, cut) := truncate_output (printed r) in
      let err := describe <$> completion_error (completion r) in
      (REPLResult.mk out err (wall_ms r) cut (peak_bytes r) (cpu_ms r) (is_null err),
       context_after r)
  end.

(** What a call captured from the code, before truncation: nothing when
    an import was rejected, else what the interpreter printed. *)
Definition captured_output (p : ExecutePythonParams.t) (ctx : Context) : string :=
  match rejected_import (ExecutePythonParams.code p) with
  | Some _ => ""
  | None => printed (interp (ExecutePythonParams.code p) (effective_timeout p) ctx)
  end.

End LocalRestrictedBackend.

(** Whether the [error] field of a result holds a non-empty description. *)
Definition error_nonempty (r : REPLResult.t) : bool :=
  match REPLResult.error r with
  | Some msg => negb (String.eqb msg "")
  | None => false
  end.

(** ** Orchestrator dispatch loop *)

Record ToolCall : Type := mkToolCall {
  call_id : string;
  tool_name : string;
  arguments : string
}.

Record ToolResult : Type := mkToolResult {
  content : string;
  is_error : bool;                   (* handler failures are results too *)
  tool_ms : nat
}.

(** One completion of the external model. *)
Record ModelResponse : Type := mkModelResponse {
  text : string;
  tool_calls : list ToolCall;
  model_ms : nat
}.

(** What a step is charged against the budgets. *)
Record Usage : Type := mkUsage {
  tokens : nat;
  cost : nat
}.

Inductive Message : Type :=
  | TaskMessage (task : string)
  | ModelMessage (r : ModelResponse)
  | ToolMessage (c : ToolCall) (r : ToolResult).

(** Modelled from the spec: the budgets of one orchestration run; the
    orchestrator is missing from the sources. *)
Record Budget : Type := mkBudget {
  max_depth : nat;
  token_budget : nat;
  tool_call_budget : nat;
  cost_limit : nat
}.

(** Modelled from the spec: trajectory records; every transition of the
    loop appends one. *)
Inductive TrajectoryEvent : Type :=
  | ModelExchange (depth : nat) (r : ModelResponse)
  | ToolDispatch (depth : nat) (results : list (ToolCall * ToolResult))
  | ForcedStop (depth : nat)
  | CancelledStop (depth : nat).

(** Modelled from the spec: the three ways a run becomes terminal: an
    answer without tool calls, a budget or depth limit, a cancellation. *)
Inductive Ending : Type := by_answer | by_limit | by_cancel.

(** Modelled from the spec: the states of the dispatch loop. *)
Inductive LoopState : Type :=
  | awaiting_model
  | awaiting_tools (calls : list ToolCall)
  | terminal (how : Ending) (result : AgentResult.t).

Definition is_terminal (s : LoopState) : bool :=
  match s with
  | terminal _ _ => true
  | _ => false
  end.

Definition is_model_exchange (e : TrajectoryEvent) : bool :=
  match e with
  | ModelExchange _ _ => true
  | _ => false
  end.

Definition is_tool_dispatch (e : TrajectoryEvent) : bool :=
  match e with
  | ToolDispatch _ _ => true
  | _ => false
  end.

(** Model calls and tool-dispatch round trips a trajectory records. *)
Definition model_calls (tr : list TrajectoryEvent) : nat :=
  length (List.filter is_model_exchange tr).

Definition round_trips (tr : list TrajectoryEvent) : nat :=
  length (List.filter is_tool_dispatch tr).

(** The model responses a conversation holds, and those a trajectory
    records, oldest first. *)
Definition response_of (m : Message) : list ModelResponse :=
  match m with
  | ModelMessage r => [r]
  | _ => []
  end.

Definition exchange_of (e : TrajectoryEvent) : list ModelResponse :=
  match e with
  | ModelExchange _ r => [r]
  | _ => []
  end.

Definition responses (conv : list Message) : list ModelResponse :=
  flat_map response_of conv.

Definition exchanges (tr : list TrajectoryEvent) : list ModelResponse :=
  flat_map exchange_of tr.

(** The text of the latest model response in a conversation; empty when the
    model has not answered yet. *)
Definition latest_text (acc : string) (m : Message) : string :=
  match m with
  | ModelMessage r => text r
  | _ => acc
  end.

Definition last_model_text (conv : list Message) : string :=
  fold_left latest_text conv "".

Section Orchestrator.

(** [W] is whatever the tools act on (sessions, files).  The model, the
    tool registry, the designated result variable and the cancellation
    signal are the run's collaborators; nothing is assumed of them.
    [model_usage] and [tool_tokens] give what a model call on a conversation
    and a tool call are charged; the charge of a step is fixed by the
    request, so the loop knows it before it issues the step. *)
Context {W : Type}.
Variable model : list Message -> ModelResponse.
Variable model_usage : list Message -> Usage.
Variable dispatch : ToolCall -> W -> ToolResult * W.
Variable tool_tokens : ToolCall -> nat.
Variable result_var : W -> option string.
Variable cancel_requested : nat -> bool.
Variable budget : Budget.
Variable run_id : string.

Record Run : Type := mkRun {
  state : LoopState;
  conversation : list Message;
  depth : nat;
  tokens_used : nat;
  tool_calls_used : nat;
  cost_used : nat;
  elapsed_ms : nat;
  partial : string;                  (* text of the latest model response *)
  trajectory : list TrajectoryEvent; (* oldest first *)
  world : W
}.

Definition initial (task : string) (w : W) : Run :=
  mkRun awaiting_model [TaskMessage task] 0 0 0 0 0 "" [] w.

(** The answer a run can report at this point: the designated result
    variable if a tool wrote one, else the latest response text. *)
Definition best_answer (st : Run) : string * string :=
  match result_var (world st) with
  | Some v => (v, "final_var")
  | None => (partial st, "final")
  end.

Definition make_result (forced ok : bool) (st : Run) : AgentResult.t :=
  let '(ans, src) := best_answer st in
  AgentResult.mk ans (if forced then "forced" else src)
    (depth st) (tokens_used st) (cost_used st) (elapsed_ms st)
    forced run_id ok.

Definition stop (status : Ending) (forced ok : bool)
    (ev : list TrajectoryEvent) (st : Run) : Run :=
  mkRun (terminal status (make_result forced ok st))
    (conversation st) (depth st) (tokens_used st) (tool_calls_used st)
    (cost_used st) (elapsed_ms st) (partial st) (trajectory st ++ ev) (world st).

Definition calls_tokens (calls : list ToolCall) : nat :=
  list_sum (map tool_tokens calls).

(** Budget checks, made on the state before the step they guard: the step
    is allowed when what it is charged still fits. *)
Definition model_call_allowed (st : Run) : bool :=
  (tokens_used st + tokens (model_usage (conversation st)) <=? token_budget budget)
  && (cost_used st + cost (model_usage (conversation st)) <=? cost_limit budget).

Definition dispatch_allowed (calls : list ToolCall) (st : Run) : bool :=
  (depth st + 1 <=? max_depth budget)
  && ((tool_calls_used st + length calls <=? tool_call_budget budget)
      && (tokens_used st + calls_tokens calls <=? token_budget budget)).

(** Tool calls of one response, dispatched in the order requested. *)
Fixpoint dispatch_all (calls : list ToolCall) (w : W)
    : list (ToolCall * ToolResult) * W :=
  match calls with
  | [] => ([], w)
  | c :: rest =>
      let '(r, w1) := dispatch c w in
      let '(rs, w2) := dispatch_all rest w1 in
      ((c, r) :: rs, w2)
  end.

Definition results_ms (rs : list (ToolCall * ToolResult)) : nat :=
  list_sum (map (fun cr => tool_ms (snd cr)) rs).

(** Modelled from the spec: one transition of the dispatch loop's state
    machine, which is missing from the sources.  Cancellation and the
    budgets are looked at first; only then is the model called or are the
    tools dispatched, and a step whose charge would pass a budget is not
    made. *)
Definition step (st : Run) : Run :=
  match state st with
  | terminal _ _ => st
  | awaiting_model =>
      if cancel_requested (length (trajectory st))
      then stop by_cancel false false [CancelledStop (depth st)] st
      else if negb (model_call_allowed st)
      then stop by_limit true false [ForcedStop (depth st)] st
      else
        let r := model (conversation st) in
        let u := model_usage (conversation st) in
        let st' :=
          mkRun awaiting_model (conversation st ++ [ModelMessage r]) (depth st)
            (tokens_used st + tokens u) (tool_calls_used st)
            (cost_used st + cost u) (elapsed_ms st + model_ms r) (text r)
            (trajectory st) (world st) in
        match tool_calls r with
        | [] => stop by_answer false true [ModelExchange (depth st) r] st'
        | calls =>
            mkRun (awaiting_tools calls) (conversation st') (depth st')
              (tokens_used st') (tool_calls_used st') (cost_used st')
              (elapsed_ms st') (partial st')
              (trajectory st ++ [ModelExchange (depth st) r]) (world st')
        end
  | awaiting_tools calls =>
      if cancel_requested (length (trajectory st))
      then stop by_cancel false false [CancelledStop (depth st)] st
      else if negb (dispatch_allowed calls st)
      then stop by_limit true false [ForcedStop (depth st)] st
      else
        let '(rs, w') := dispatch_all calls (world st) in
        mkRun awaiting_model
          (conversation st ++ map (fun cr => ToolMessage (fst cr) (snd cr)) rs)
          (depth st + 1) (tokens_used st + calls_tokens calls)
          (tool_calls_used st + length calls) (cost_used st)
          (elapsed_ms st + results_ms rs) (partial st)
          (trajectory st ++ [ToolDispatch (depth st) rs]) w'
  end.

Fixpoint run_loop (fuel : nat) (st : Run) : Run :=
  match fuel with
  | 0 => st
  | S n => run_loop n (step st)
  end.

(** Transitions that suffice for any run under the depth ceiling. *)
Definition loop_fuel : nat := 2 * max_depth budget + 2.

(** Modelled from the spec: a whole orchestration run, missing from the
    sources: the loop from the initial state, the task as first message. *)
Definition agent_run (task : string) (w : W) : Run :=
  run_loop loop_fuel (initial task w).

Definition outcome (st : Run) : option AgentResult.t :=
  match state st with
  | terminal _ r => Some r
  | _ => None
  end.

(** Transitions a run can still make before it must be terminal. *)
Definition remaining (st : Run) : nat :=
  match state st with
  | awaiting_model => 2 * (max_depth budget - depth st) + 2
  | awaiting_tools _ => 2 * (max_depth budget - depth st) + 1
  | terminal _ _ => 0
  end.

(** What holds of every state the loop goes through: the depth never
    passes the ceiling, the trajectory records exactly [depth] tool
    dispatches and at most one model call more, and no budget has been
    passed. *)
Definition within_budget (st : Run) : Prop :=
  depth st <= max_depth budget
  /\ round_trips (trajectory st) = depth st
  /\ model_calls (trajectory st)
     <= depth st + (match state st with awaiting_model => 0 | _ => 1 end)
  /\ tokens_used st <= token_budget budget
  /\ tool_calls_used st <= tool_call_budget budget
  /\ cost_used st <= cost_limit budget.

(** With a model that always asks for tools and no cancellation, the only
    way into a terminal state is a forced stop. *)
Definition only_forced (st : Run) : Prop :=
  match state st with
  | terminal _ r => AgentResult.forced_termination r = true
  | _ => True
  end.

(** What holds of a terminal state's result. *)
Definition result_ok (st : Run) : Prop :=
  match state st with
  | terminal _ r =>
      AgentResult.iterations r = depth st
      /\ (AgentResult.forced_termination r = true ->
          AgentResult.answer r = (best_answer st).1
          /\ AgentResult.answer_source r = "forced")
  | _ => True
  end.

(** The totals a terminal state's result reports are the run's own. *)
Definition totals_ok (st : Run) : Prop :=
  match state st with
  | terminal _ r =>
      AgentResult.total_tokens r = tokens_used st
      /\ AgentResult.total_cost r = cost_used st
  | _ => True
  end.

(** Every model message of [rest] is what the model answers to the
    conversation before it, [pre] being what precedes [rest]. *)
Fixpoint answers_of_model (pre rest : list Message) : Prop :=
  match rest with
  | [] => True
  | ModelMessage r :: rest' =>
      r = model pre /\ answers_of_model (pre ++ [ModelMessage r]) rest'
  | m :: rest' => answers_of_model (pre ++ [m]) rest'
  end.

(** The run's records agree with what the model said: the stored partial
    answer is the text of the latest response in the conversation, the
    trajectory records the same responses as the conversation, and each of
    them is the model's answer to the conversation before it. *)
Definition log_faithful (st : Run) : Prop :=
  partial st = last_model_text (conversation st)
  /\ exchanges (trajectory st) = responses (conversation st)
  /\ answers_of_model [] (conversation st).

End Orchestrator.

(** ** Reference algorithm of the import decision *)

(** The two explicit name sets. *)
Definition BLOCKED_SET : gset string := list_to_set BLOCKED_IMPORTS.
Definition ALLOWED_SET : gset string := list_to_set ALLOWED_IMPORTS.

(** The dotted prefixes of a name, shortest first: the name cut before each
    of its dots, then the whole name.  [acc] is the part already read. *)
Fixpoint dotted_prefixes_from (acc s : string) : list string :=
  match s with
  | EmptyString => [acc]
  | String c rest =>
      if Ascii.eqb c "."
      then acc :: dotted_prefixes_from (acc +:+ ".") rest
      else dotted_prefixes_from (acc +:+ String c EmptyString) rest
  end.

Definition dotted_prefixes (s : string) : list string :=
  dotted_prefixes_from EmptyString s.

(** Walk over prefixes: deny on the first blocked one, allow on the first
    allowed one, deny when none is listed. *)
Fixpoint reference_walk (B A : gset string) (prefixes : list string) : bool :=
  match prefixes with
  | [] => false
  | p :: rest =>
      if bool_decide (p ∈ B) then false
      else if bool_decide (p ∈ A) then true
      else reference_walk B A rest
  end.

(** The decision as the design notes word it: set membership of the full
    name in the two sets, then the parent-prefix walk, default deny. *)
Definition import_decision_reference (B A : gset string) (name : string) : bool :=
  if bool_decide (name ∈ B) then false
  else if bool_decide (name ∈ A) then true
  else reference_walk B A (dotted_prefixes name).

(** The parent names the loop of [isImportAllowed] builds, in loop order. *)
Definition parent_names (parts : list string) : list string :=
  map (fun i => Js.join "." (Js.slice0 (i + 1) parts)) (seq 0 (length parts)).

(** The loop's decision over a list of parent names already built. *)
Fixpoint names_walk (blocked allowed : list string) (names : list string) : bool :=
  match names with
  | [] => false
  | p :: rest =>
      if Js.includes blocked p then false
      else if Js.includes allowed p then true
      else names_walk blocked allowed rest
  end.

(** ** MCP tool names and default configuration *)

(** The object literal [MCP_TOOLS], as its properties in source order. *)
Definition MCP_TOOLS : list (string * string) :=
  [ ("EXECUTE_PYTHON", "execute_python");
    ("GET_REPL_CONTEXT", "get_repl_context");
    ("SET_REPL_CONTEXT", "set_repl_context");
    ("CLEAR_REPL_CONTEXT", "clear_repl_context");
    ("LIST_SESSIONS", "list_sessions");
    ("DESTROY_SESSION", "destroy_session");
    ("AGENT_RUN", "rlm_agent_run");
    ("AGENT_STATUS", "rlm_agent_status");
    ("AGENT_CANCEL", "rlm_agent_cancel") ].

(** [MCPToolName = typeof MCP_TOOLS[keyof typeof MCP_TOOLS]]: the strings
    that are the value of some property of [MCP_TOOLS]. *)
Definition is_MCPToolName (s : string) : bool :=
  Js.includes (map snd MCP_TOOLS) s.

Module RLMConfig.
Record t : Type := mk {
  backend : string;
  model : string;
  temperature : nat;                 (* the source value is the number 0 *)
  trust_level : TrustLevel;
  token_budget : nat;
  max_depth : nat;
  timeout_seconds : nat;
  memory_enabled : bool
}.
End RLMConfig.

Definition DEFAULT_CONFIG : RLMConfig.t :=
  RLMConfig.mk "litellm" "gpt-4o-mini" 0 sandboxed 50000 6 300 false.

(** Position of a profile in the declaration order of [ExecutionProfile]. *)
Definition profile_rank (p : ExecutionProfile) : nat :=
  match p with
  | Quick => 0
  | Default => 1
  | Analysis => 2
  | Extended => 3
  end.

(** ** The import decision by leading components *)

Fixpoint has_dot (s : string) : bool :=
  match s with
  | EmptyString => false
  | String c rest => Ascii.eqb c "." || has_dot rest
  end.

(** What [isImportAllowed] comes to on the exported lists, read off the
    first components of the name: [urllib] is decided by its second
    component, every other name by its first. *)
Definition decision_by_components (parts : list string) : bool :=
  match parts with
  | [] => false
  | c :: rest =>
      if String.eqb c "urllib"
      then match rest with
           | r :: _ => String.eqb r "parse"
           | [] => false
           end
      else Js.includes ALLOWED_IMPORTS c
  end.

(** ** Sample collaborators, to run the models on concrete inputs *)

(** Import scan of a one-statement program [import <module>]. *)
Definition sample_imports_of (code : string) : list string :=
  if String.prefix "import " code
  then [String.substring 7 (String.length code - 7) code]
  else [].

(** An interpreter that prints the code it is given and changes nothing. *)
Definition echo_interp (code : string) (deadline : nat) (ctx : Context)
    : InterpreterRun :=
  mkInterpreterRun code Finished ctx 1 None None.

(** An interpreter whose every run raises. *)
Definition failing_interp (code : string) (deadline : nat) (ctx : Context)
    : InterpreterRun :=
  mkInterpreterRun "" (Raised "ZeroDivisionError") ctx 1 None None.

(** A program one byte longer than the output ceiling. *)
Definition long_program : string :=
  string_of_list_ascii (repeat "a"%char (S OUTPUT_CEILING)).

Definition sample_request (code : string) : ExecutePythonParams.t :=
  ExecutePythonParams.mk code None None None.

(** A model that asks for a tool on every response. *)
Definition greedy_model (conv : list Message) : ModelResponse :=
  mkModelResponse "working" [mkToolCall "call" "execute_code" "{}"] 5.

(** A model that answers at once, without tools. *)
Definition direct_model (conv : list Message) : ModelResponse :=
  mkModelResponse "4" [] 5.

(** Ten tokens and one unit of cost for every model call, three tokens for
    every tool call. *)
Definition flat_usage (conv : list Message) : Usage := mkUsage 10 1.

Definition flat_tool_tokens (c : ToolCall) : nat := 3.

Definition sample_dispatch (c : ToolCall) (w : unit) : ToolResult * unit :=
  (mkToolResult "ok" false 1, w).

Definition no_result_var (w : unit) : option string := None.

Definition never_cancelled (checkpoint : nat) : bool := false.

Definition sample_budget : Budget := mkBudget 2 1000 100 1000.

(** A session table with one session that is not the default one. *)
Definition sample_table : SessionTable :=
  {[ "other" := Session.mk docker {[ "y" := "1" ]} 0 0 ]}.

(** * Properties *)

(** ** JavaScript primitives *)

Lemma includes_In (arr : list string) (x : string) :
  Js.includes arr x = true <-> In x arr.
Proof.
  unfold Js.includes. rewrite existsb_exists. split.
  - intros (y & Hy & Heq). apply String.eqb_eq in Heq. now subst.
  - intros Hin. exists x. split; [assumption | apply String.eqb_refl].
Qed.

Lemma includes_elem_of (arr : list string) (x : string) :
  Js.includes arr x = bool_decide (x ∈ (list_to_set arr : gset string)).
Proof.
  destruct (Js.includes arr x) eqn:E.
  - symmetry. apply bool_decide_eq_true. apply elem_of_list_to_set.
    apply list_elem_of_In. now apply includes_In.
  - symmetry. apply bool_decide_eq_false. intros Hin.
    apply elem_of_list_to_set, list_elem_of_In, includes_In in Hin. congruence.
Qed.

Lemma split_not_nil (sep : ascii) (s : string) : Js.split sep s <> [].
Proof.
  destruct s as [|c s]; simpl; [discriminate|].
  destruct (Ascii.eqb c sep); [discriminate|].
  destruct (Js.split sep s); discriminate.
Qed.

Lemma string_app_nil_l (s : string) : "" +:+ s = s.
Proof. reflexivity. Qed.

Lemma string_app_cons (c : ascii) (s t : string) :
  String c s +:+ t = String c (s +:+ t).
Proof. reflexivity. Qed.

Lemma string_app_empty_r (s : string) : s +:+ "" = s.
Proof.
  induction s as [|c s IH]; [reflexivity|].
  now rewrite string_app_cons, IH.
Qed.

Lemma string_app_assoc (a b c : string) : (a +:+ b) +:+ c = a +:+ (b +:+ c).
Proof.
  induction a as [|x a IH]; [reflexivity|].
  now rewrite !string_app_cons, IH.
Qed.

Lemma join_cons_cons (sep p q : string) (ps : list string) :
  Js.join sep (p :: q :: ps) = p +:+ sep +:+ Js.join sep (q :: ps).
Proof. reflexivity. Qed.

(** The parent names of [a :: l] are [a] and then [a.] in front of every
    parent name of [l]. *)
Lemma parent_names_cons (a : string) (l : list string) :
  parent_names (a :: l)
  = a :: map (fun p => a +:+ "." +:+ p) (parent_names l).
Proof.
  unfold parent_names. simpl length. rewrite <- cons_seq. simpl map at 1.
  f_equal. rewrite <- seq_shift, !map_map.
  apply map_ext_in. intros i Hi. apply in_seq in Hi.
  unfold Js.slice0. replace (S i + 1) with (S (i + 1)) by lia.
  simpl firstn. destruct l as [|b l]; [simpl in Hi; lia|].
  replace (i + 1) with (S i) by lia. reflexivity.
Qed.

Lemma parent_names_String (c : ascii) (x : string) (l : list string) :
  parent_names (String c x :: l) = map (String c) (parent_names (x :: l)).
Proof.
  rewrite !parent_names_cons. simpl. f_equal. rewrite map_map. reflexivity.
Qed.

(** ** The import check *)

(** Splitting at the dots and joining the leading parts again yields the
    dotted prefixes of the name, shortest first. *)
Lemma dotted_prefixes_from_split (s acc : string) :
  dotted_prefixes_from acc s
  = map (fun p => acc +:+ p) (parent_names (Js.split "." s)).
Proof.
  revert acc. induction s as [|c s IH]; intros acc.
  - simpl. now rewrite string_app_empty_r.
  - simpl. destruct (Ascii.eqb c ".") eqn:Ec.
    + rewrite parent_names_cons. simpl map. rewrite string_app_empty_r.
      f_equal. rewrite IH, map_map. apply map_ext. intros p.
      now rewrite string_app_nil_l, string_app_assoc.
    + pose proof (split_not_nil "." s) as Hne.
      destruct (Js.split "." s) as [|x l] eqn:Es; [congruence|].
      rewrite parent_names_String, IH, map_map. apply map_ext. intros p.
      now rewrite string_app_assoc.
Qed.

Lemma parent_names_split (s : string) :
  parent_names (Js.split "." s) = dotted_prefixes s.
Proof.
  unfold dotted_prefixes. rewrite dotted_prefixes_from_split.
  rewrite <- (map_id (parent_names _)) at 1. apply map_ext. intros p.
  now rewrite string_app_nil_l.
Qed.

Lemma parent_walk_names (blocked allowed parts : list string) (indices : list nat) :
  parent_walk blocked allowed parts indices
  = names_walk blocked allowed
      (map (fun i => Js.join "." (Js.slice0 (i + 1) parts)) indices).
Proof.
  induction indices as [|i rest IH]; simpl; [reflexivity|].
  now rewrite IH.
Qed.

(** [isImportAllowed] as a walk over the dotted prefixes of the name. *)
Lemma import_allowed_in_prefixes (blocked allowed : list string) (m : string) :
  import_allowed_in blocked allowed m
  = if Js.includes blocked m then false
    else if Js.includes allowed m then true
    else names_walk blocked allowed (dotted_prefixes m).
Proof.
  unfold import_allowed_in. rewrite parent_walk_names.
  fold (parent_names (Js.split "." m)). now rewrite parent_names_split.
Qed.

Lemma names_walk_reference (blocked allowed names : list string) :
  names_walk blocked allowed names
  = reference_walk (list_to_set blocked) (list_to_set allowed) names.
Proof.
  induction names as [|p rest IH]; simpl; [reflexivity|].
  now rewrite IH, <- !includes_elem_of.
Qed.

Lemma names_walk_app_true (blocked allowed l1 l2 : list string) :
  names_walk blocked allowed l1 = true ->
  names_walk blocked allowed (l1 ++ l2) = true.
Proof.
  induction l1 as [|p l1 IH]; simpl; [discriminate|].
  destruct (Js.includes blocked p); [discriminate|].
  destruct (Js.includes allowed p); auto.
Qed.

Lemma dotted_prefixes_from_dot (s1 s2 acc : string) :
  dotted_prefixes_from acc (s1 +:+ "." +:+ s2)
  = dotted_prefixes_from acc s1
    ++ dotted_prefixes_from (acc +:+ s1 +:+ ".") s2.
Proof.
  revert acc. induction s1 as [|c s1 IH]; intros acc.
  - rewrite string_app_nil_l. simpl. reflexivity.
  - rewrite string_app_cons. simpl. destruct (Ascii.eqb c ".") eqn:Ec.
    + apply Ascii.eqb_eq in Ec. subst c. rewrite IH. simpl.
      now rewrite (string_app_assoc acc "." (s1 +:+ ".")).
    + rewrite IH.
      now rewrite (string_app_assoc acc (String c "") (s1 +:+ ".")).
Qed.

Lemma dotted_prefixes_from_whole (s acc : string) :
  In (acc +:+ s) (dotted_prefixes_from acc s).
Proof.
  revert acc. induction s as [|c s IH]; intros acc; simpl.
  - left. now rewrite string_app_empty_r.
  - replace (acc +:+ String c s) with ((acc +:+ String c "") +:+ s)
      by now rewrite string_app_assoc.
    destruct (Ascii.eqb c ".") eqn:Ec.
    + apply Ascii.eqb_eq in Ec. subst c. right. apply IH.
    + apply IH.
Qed.

(** A name is among its own dotted prefixes, and so is the part before any
    of its dots. *)
Lemma dotted_prefixes_parent (p rest : string) :
  In p (dotted_prefixes (p +:+ "." +:+ rest)).
Proof.
  unfold dotted_prefixes. rewrite dotted_prefixes_from_dot.
  apply in_or_app. left. apply (dotted_prefixes_from_whole p "").
Qed.

(** Facts about the two exported lists, settled by running the checks. *)
Lemma lists_disjoint :
  forallb (fun a => negb (Js.includes BLOCKED_IMPORTS a)) ALLOWED_IMPORTS = true.
Proof. vm_compute. reflexivity. Qed.

Lemma allowed_names_walk :
  forallb (fun a => names_walk BLOCKED_IMPORTS ALLOWED_IMPORTS (dotted_prefixes a))
    ALLOWED_IMPORTS = true.
Proof. vm_compute. reflexivity. Qed.

Lemma blocked_names_no_allowed_prefix :
  forallb (fun b => forallb (fun q => negb (Js.includes ALLOWED_IMPORTS q))
                      (dotted_prefixes b))
    BLOCKED_IMPORTS = true.
Proof. vm_compute. reflexivity. Qed.

Lemma allowed_not_blocked (m : string) :
  In m ALLOWED_IMPORTS -> Js.includes BLOCKED_IMPORTS m = false.
Proof.
  intros Hin. pose proof lists_disjoint as H.
  rewrite forallb_forall in H. apply H in Hin.
  now apply negb_true_iff in Hin.
Qed.

Lemma blocked_is_rejected (m : string) :
  In m BLOCKED_IMPORTS -> isImportAllowed m = false.
Proof.
  intros Hin. unfold isImportAllowed, import_allowed_in.
  apply includes_In in Hin. now rewrite Hin.
Qed.

Lemma allowed_is_accepted (m : string) :
  In m ALLOWED_IMPORTS -> isImportAllowed m = true.
Proof.
  intros Hin. unfold isImportAllowed, import_allowed_in.
  rewrite (allowed_not_blocked m Hin).
  apply includes_In in Hin. now rewrite Hin.
Qed.

Lemma submodule_is_accepted (p rest : string) :
  In p ALLOWED_IMPORTS -> isImportAllowed (p +:+ "." +:+ rest) = true.
Proof.
  intros Hin. unfold isImportAllowed. rewrite import_allowed_in_prefixes.
  destruct (Js.includes BLOCKED_IMPORTS (p +:+ "." +:+ rest)) eqn:Eb.
  - exfalso. apply includes_In in Eb.
    pose proof blocked_names_no_allowed_prefix as H.
    rewrite forallb_forall in H. specialize (H _ Eb).
    rewrite forallb_forall in H. specialize (H p (dotted_prefixes_parent p rest)).
    apply negb_true_iff in H. apply includes_In in Hin. congruence.
  - destruct (Js.includes ALLOWED_IMPORTS (p +:+ "." +:+ rest)); [reflexivity|].
    unfold dotted_prefixes. rewrite dotted_prefixes_from_dot.
    apply names_walk_app_true.
    pose proof allowed_names_walk as H. rewrite forallb_forall in H.
    exact (H p Hin).
Qed.

Example isImportAllowed_json : isImportAllowed "json" = true.
Proof. reflexivity. Qed.

Example isImportAllowed_subprocess : isImportAllowed "subprocess" = false.
Proof. reflexivity. Qed.

Example isImportAllowed_os_path : isImportAllowed "os.path" = false.
Proof. reflexivity. Qed.

Example isImportAllowed_urllib : isImportAllowed "urllib" = false.
Proof. reflexivity. Qed.

Example isImportAllowed_urllib_parse_quote :
  isImportAllowed "urllib.parse.quote" = true.
Proof. reflexivity. Qed.

Example isImportAllowed_collections_abc : isImportAllowed "collections.abc" = true.
Proof. reflexivity. Qed.

Example isImportAllowed_random : isImportAllowed "random" = false.
Proof. reflexivity. Qed.

Example split_trailing_dot : Js.split "." "json." = ["json"; ""].
Proof. reflexivity. Qed.

Example dotted_prefixes_abc : dotted_prefixes "a.b.c" = ["a"; "a.b"; "a.b.c"].
Proof. reflexivity. Qed.

(** ** The local restricted backend *)

Section BackendFacts.

Variable imports_of : string -> list string.
Variable interp : string -> nat -> Context -> InterpreterRun.

Lemma rejected_import_blocked (code m : string) :
  In m BLOCKED_IMPORTS -> In m (imports_of code) ->
  exists m', rejected_import imports_of code = Some m'.
Proof.
  intros Hb Hin. unfold rejected_import.
  destruct (find _ (imports_of code)) as [m'|] eqn:E; [now exists m'|].
  exfalso. apply (find_none _ _ E) in Hin.
  rewrite (blocked_is_rejected m Hb) in Hin. discriminate.
Qed.

Lemma execute_code_rejected (p : ExecutePythonParams.t) (ctx : Context) (m : string) :
  rejected_import imports_of (ExecutePythonParams.code p) = Some m ->
  execute_code imports_of interp p ctx = (security_result m, ctx).
Proof. intros E. unfold execute_code. now rewrite E. Qed.

Lemma execute_code_ran (p : ExecutePythonParams.t) (ctx : Context) :
  rejected_import imports_of (ExecutePythonParams.code p) = None ->
  execute_code imports_of interp p ctx
  = let r := interp (ExecutePythonParams.code p) (effective_timeout p) ctx in
    let err := describe <$> completion_error (completion r) in
    (REPLResult.mk (fst (truncate_output (printed r))) err (wall_ms r)
       (snd (truncate_output (printed r))) (peak_bytes r) (cpu_ms r) (is_null err),
     context_after r).
Proof.
  intros E. unfold execute_code. rewrite E. cbv zeta.
  now destruct (truncate_output _).
Qed.

End BackendFacts.

Lemma describe_nonempty (e : ExecError) : String.eqb (describe e) "" = false.
Proof. destruct e; reflexivity. Qed.

(** C1. Every module name of [BLOCKED_IMPORTS] is rejected by the check:
    [isImportAllowed] returns [false]; and [execute_code] on code that
    imports it returns [success = false] with a security-violation error,
    empty output and the context untouched, whatever the interpreter is:
    no user code has run. *)
Theorem blocked_import_rejected (m : string) :
  In m BLOCKED_IMPORTS ->
  isImportAllowed m = false
  /\ forall imports_of interp p ctx,
       In m (imports_of (ExecutePythonParams.code p)) ->
       let res := execute_code imports_of interp p ctx in
       REPLResult.success (fst res) = false
       /\ (exists d, REPLResult.error (fst res) = Some (describe (SecurityViolation d)))
       /\ REPLResult.output (fst res) = ""
       /\ snd res = ctx
       /\ forall interp', execute_code imports_of interp' p ctx = res.
Proof.
  intros Hb. split; [now apply blocked_is_rejected|].
  intros imports_of interp p ctx Hin res.
  destruct (rejected_import_blocked imports_of _ m Hb Hin) as [m' E].
  subst res. rewrite (execute_code_rejected imports_of interp p ctx m' E).
  simpl. repeat split; try reflexivity.
  - eexists. reflexivity.
  - intros interp'. now apply execute_code_rejected.
Qed.

Lemma blocked_import_rejected_witness :
  In "os" BLOCKED_IMPORTS
  /\ isImportAllowed "os" = false
  /\ REPLResult.success
       (fst (execute_code sample_imports_of echo_interp (sample_request "import os") ∅))
     = false
  /\ snd (execute_code sample_imports_of echo_interp (sample_request "import os") ∅)
     = ∅
  /\ execute_code sample_imports_of failing_interp (sample_request "import os") ∅
     = execute_code sample_imports_of echo_interp (sample_request "import os") ∅.
Proof.
  assert (Hb : In "os" BLOCKED_IMPORTS) by (simpl; tauto).
  destruct (blocked_import_rejected "os" Hb) as [Hcheck Hexec].
  split; [exact Hb|]. split; [exact Hcheck|].
  assert (Hin : In "os" (sample_imports_of
                           (ExecutePythonParams.code (sample_request "import os"))))
    by (vm_compute; tauto).
  destruct (Hexec sample_imports_of echo_interp (sample_request "import os") ∅ Hin)
    as (Hs & _ & _ & Hc & Hany).
  split; [exact Hs|]. split; [exact Hc|]. exact (Hany failing_interp).
Defined.

(** C2. Every module name of [ALLOWED_IMPORTS], and every dotted name
    [p.rest] whose parent prefix [p] is in [ALLOWED_IMPORTS], is accepted:
    [isImportAllowed] returns [true]. *)
Theorem allowed_import_accepted (p : string) :
  In p ALLOWED_IMPORTS ->
  isImportAllowed p = true
  /\ forall rest, isImportAllowed (p +:+ "." +:+ rest) = true.
Proof.
  intros Hin. split.
  - now apply allowed_is_accepted.
  - intros rest. now apply submodule_is_accepted.
Qed.

Lemma allowed_import_accepted_witness :
  In "urllib.parse" ALLOWED_IMPORTS
  /\ isImportAllowed "urllib.parse" = true
  /\ isImportAllowed "urllib.parse.quote" = true.
Proof.
  assert (Hin : In "urllib.parse" ALLOWED_IMPORTS) by (simpl; tauto).
  destruct (allowed_import_accepted "urllib.parse" Hin) as [H1 H2].
  split; [exact Hin|]. split; [exact H1|]. exact (H2 "quote").
Defined.

(** C3. The decision of [isImportAllowed] equals the reference algorithm:
    membership of the full name in the blocked set denies, in the allowed
    set allows, otherwise the dotted prefixes are walked from shortest to
    longest, the first blocked one denying and the first allowed one
    allowing, and a name with no listed prefix is denied.  Both sides are
    total functions of the module name alone. *)
Theorem isImportAllowed_refines_reference (moduleName : string) :
  isImportAllowed moduleName
  = import_decision_reference BLOCKED_SET ALLOWED_SET moduleName.
Proof.
  unfold isImportAllowed, import_decision_reference, BLOCKED_SET, ALLOWED_SET.
  rewrite import_allowed_in_prefixes, names_walk_reference.
  now rewrite <- !includes_elem_of.
Qed.

(** C10. No module name is in both [ALLOWED_IMPORTS] and [BLOCKED_IMPORTS];
    hence for a listed name the decision of [isImportAllowed] is settled by
    the list it is in, whichever of the two is consulted first. *)
Theorem import_lists_disjoint (m : string) :
  Js.includes ALLOWED_IMPORTS m && Js.includes BLOCKED_IMPORTS m = false
  /\ (Js.includes BLOCKED_IMPORTS m || Js.includes ALLOWED_IMPORTS m = true ->
      isImportAllowed m = Js.includes ALLOWED_IMPORTS m).
Proof.
  assert (Hd : Js.includes ALLOWED_IMPORTS m && Js.includes BLOCKED_IMPORTS m = false).
  { destruct (Js.includes ALLOWED_IMPORTS m) eqn:Ea; [|reflexivity].
    apply includes_In in Ea. rewrite andb_true_l. now apply allowed_not_blocked. }
  split; [exact Hd|].
  intros Hlisted. unfold isImportAllowed, import_allowed_in.
  destruct (Js.includes BLOCKED_IMPORTS m) eqn:Eb.
  - rewrite andb_true_r in Hd. now rewrite Hd.
  - rewrite orb_false_l in Hlisted. now rewrite Hlisted.
Qed.

Lemma import_lists_disjoint_witness :
  isImportAllowed "json" = Js.includes ALLOWED_IMPORTS "json"
  /\ isImportAllowed "os" = Js.includes ALLOWED_IMPORTS "os".
Proof.
  split.
  - apply (import_lists_disjoint "json"). vm_compute. reflexivity.
  - apply (import_lists_disjoint "os"). vm_compute. reflexivity.
Defined.

(** ** Execution profiles and trust levels *)

Example memory_megabytes_512m : memory_megabytes "512m" = Some 512.
Proof. reflexivity. Qed.

Example memory_megabytes_no_unit : memory_megabytes "512" = None.
Proof. reflexivity. Qed.

(** C4. The four profiles carry the fixed limits quick = 5 s / 128 MB,
    default = 30 s / 512 MB, analysis = 120 s / 2 GB and extended = 300 s /
    4 GB, there is no fifth entry, and [getProfile] returns the entry of
    [EXECUTION_PROFILES] stored under the profile's name. *)
Theorem execution_profiles_limits :
  (timeout <$> getProfile Quick = Some 5
   /\ memory <$> getProfile Quick = Some "128m"
   /\ memory_megabytes "128m" = Some 128)
  /\ (timeout <$> getProfile Default = Some 30
      /\ memory <$> getProfile Default = Some "512m"
      /\ memory_megabytes "512m" = Some 512)
  /\ (timeout <$> getProfile Analysis = Some 120
      /\ memory <$> getProfile Analysis = Some "2g"
      /\ memory_megabytes "2g" = Some (2 * 1024))
  /\ (timeout <$> getProfile Extended = Some 300
      /\ memory <$> getProfile Extended = Some "4g"
      /\ memory_megabytes "4g" = Some (4 * 1024))
  /\ dom EXECUTION_PROFILES
     = list_to_set (map profile_name [Quick; Default; Analysis; Extended])
  /\ forall name : ExecutionProfile,
       exists entry,
         EXECUTION_PROFILES !! profile_name name = Some entry
         /\ getProfile name = Some entry.
Proof.
  split; [repeat split; vm_compute; reflexivity|].
  split; [repeat split; vm_compute; reflexivity|].
  split; [repeat split; vm_compute; reflexivity|].
  split; [repeat split; vm_compute; reflexivity|].
  split.
  - unfold EXECUTION_PROFILES. rewrite !dom_insert_L, dom_empty_L.
    simpl. set_solver.
  - intros name. unfold getProfile.
    destruct name; eexists; split; vm_compute; reflexivity.
Qed.

(** C5, as amended.  A trust level is exactly one of the three values
    [sandboxed], [docker] and [local]: the [TrustLevel] type admits these
    strings and no others. *)
Theorem trust_level_values (s : string) :
  (is_TrustLevel s = true <-> s = "sandboxed" \/ s = "docker" \/ s = "local")
  /\ (is_TrustLevel s = true <-> exists t : TrustLevel, trust_level_literal t = s)
  /\ forall t : TrustLevel, t = sandboxed \/ t = docker \/ t = local.
Proof.
  split; [|split].
  - unfold is_TrustLevel. rewrite includes_In. simpl. intuition congruence.
  - unfold is_TrustLevel. rewrite includes_In. simpl. split.
    + intros [H|[H|[H|[]]]]; subst s;
        [exists sandboxed | exists docker | exists local]; reflexivity.
    + intros [t <-]. destruct t; simpl; tauto.
  - intros t. destruct t; tauto.
Qed.

(** C5, as the data model words it, fails: ["container"] is in the worded
    set and is not a value of [TrustLevel], while ["docker"] is a value of
    [TrustLevel] and is not in the worded set. *)
Lemma trust_level_container_not_admitted :
  Js.includes SPEC_TRUST_LEVELS "container" = true
  /\ is_TrustLevel "container" = false
  /\ is_TrustLevel "docker" = true
  /\ Js.includes SPEC_TRUST_LEVELS "docker" = false.
Proof. repeat split; reflexivity. Qed.

(** ** Results of an execution *)

Lemma substring_prefix_length (n : nat) (s : string) :
  n <= String.length s -> String.length (String.substring 0 n s) = n.
Proof.
  revert s. induction n as [|n IH]; intros s Hn.
  - destruct s; reflexivity.
  - destruct s as [|c s]; simpl in *; [lia|].
    f_equal. apply IH. lia.
Qed.

Lemma truncate_at_above (ceiling : nat) (out : string) :
  ceiling < String.length out ->
  truncate_at ceiling out = (String.substring 0 ceiling out, true).
Proof.
  intros H. unfold truncate_at. apply Nat.ltb_lt in H. now rewrite H.
Qed.

Lemma truncate_at_within (ceiling : nat) (out : string) :
  String.length out <= ceiling -> truncate_at ceiling out = (out, false).
Proof.
  intros H. unfold truncate_at.
  destruct (ceiling <? String.length out) eqn:E; [|reflexivity].
  apply Nat.ltb_lt in E. lia.
Qed.

Lemma truncate_at_empty (ceiling : nat) : truncate_at ceiling "" = ("", false).
Proof. apply truncate_at_within. simpl. lia. Qed.

Lemma execute_code_output (imports_of : string -> list string)
    (interp : string -> nat -> Context -> InterpreterRun)
    (p : ExecutePythonParams.t) (ctx : Context) :
  let r := fst (execute_code imports_of interp p ctx) in
  (REPLResult.output r, REPLResult.truncated r)
  = truncate_output (captured_output imports_of interp p ctx).
Proof.
  unfold captured_output.
  destruct (rejected_import imports_of (ExecutePythonParams.code p)) as [m|] eqn:E.
  - rewrite (execute_code_rejected _ interp p ctx m E). simpl.
    unfold truncate_output. now rewrite truncate_at_empty.
  - rewrite (execute_code_ran _ interp p ctx E). simpl.
    now destruct (truncate_output _).
Qed.

Example execute_code_echo :
  (execute_code sample_imports_of echo_interp (sample_request "print(4)") ∅).1
  = REPLResult.mk "print(4)" None 1 false None None true.
Proof. vm_compute. reflexivity. Qed.

Example execute_code_raises :
  (execute_code sample_imports_of failing_interp (sample_request "1/0") ∅).1
  = REPLResult.mk "" (Some "ExecutionFailure: ZeroDivisionError") 1 false None None
      false.
Proof. vm_compute. reflexivity. Qed.

Example execute_code_import_os :
  (execute_code sample_imports_of echo_interp (sample_request "import os") ∅).1
  = REPLResult.mk ""
      (Some "SecurityViolation: import of 'os' is not allowed") 0 false None None
      false.
Proof. vm_compute. reflexivity. Qed.

Example execute_code_import_json :
  REPLResult.success
    (execute_code sample_imports_of echo_interp (sample_request "import json") ∅).1
  = true.
Proof. vm_compute. reflexivity. Qed.

(** C6. For every result an execution produces, [success] is [false]
    exactly when the [error] field holds a non-empty description. *)
Theorem success_false_iff_error (imports_of : string -> list string)
    (interp : string -> nat -> Context -> InterpreterRun)
    (p : ExecutePythonParams.t) (ctx : Context) :
  REPLResult.success (fst (execute_code imports_of interp p ctx)) = false
  <-> error_nonempty (fst (execute_code imports_of interp p ctx)) = true.
Proof.
  destruct (rejected_import imports_of (ExecutePythonParams.code p)) as [m|] eqn:E.
  - rewrite (execute_code_rejected _ interp p ctx m E).
    unfold error_nonempty, security_result.
    cbn [fst REPLResult.error REPLResult.success].
    rewrite describe_nonempty. tauto.
  - rewrite (execute_code_ran _ interp p ctx E).
    unfold error_nonempty. cbv zeta.
    cbn [fst REPLResult.error REPLResult.success].
    destruct (completion_error _) as [e|];
      cbn [fmap option_fmap option_map is_null].
    + rewrite describe_nonempty. tauto.
    + split; discriminate.
Qed.

(** C9. Output longer than the 100 KB ceiling is cut to its first
    [OUTPUT_CEILING] bytes and the result has [truncated = true]; output at
    or below the ceiling is returned verbatim with [truncated = false]. *)
Theorem output_truncation (imports_of : string -> list string)
    (interp : string -> nat -> Context -> InterpreterRun)
    (p : ExecutePythonParams.t) (ctx : Context) :
  OUTPUT_CEILING = 100 * 1024
  /\ (OUTPUT_CEILING < String.length (captured_output imports_of interp p ctx) ->
      REPLResult.truncated (fst (execute_code imports_of interp p ctx)) = true
      /\ REPLResult.output (fst (execute_code imports_of interp p ctx))
         = String.substring 0 OUTPUT_CEILING (captured_output imports_of interp p ctx)
      /\ String.length (REPLResult.output (fst (execute_code imports_of interp p ctx)))
         = OUTPUT_CEILING)
  /\ (String.length (captured_output imports_of interp p ctx) <= OUTPUT_CEILING ->
      REPLResult.truncated (fst (execute_code imports_of interp p ctx)) = false
      /\ REPLResult.output (fst (execute_code imports_of interp p ctx))
         = captured_output imports_of interp p ctx).
Proof.
  pose proof (execute_code_output imports_of interp p ctx) as H. cbv zeta in H.
  unfold truncate_output in H.
  split; [reflexivity|]. split; intros Hlen.
  - rewrite (truncate_at_above _ _ Hlen) in H. injection H as Ho Ht.
    split; [exact Ht|]. split; [exact Ho|].
    rewrite Ho. apply substring_prefix_length. lia.
  - rewrite (truncate_at_within _ _ Hlen) in H. injection H as Ho Ht.
    split; [exact Ht | exact Ho].
Qed.

Lemma output_truncation_witness :
  (REPLResult.truncated
     (fst (execute_code sample_imports_of echo_interp (sample_request long_program) ∅))
   = true
   /\ String.length
        (REPLResult.output
           (fst (execute_code sample_imports_of echo_interp
                   (sample_request long_program) ∅)))
      = OUTPUT_CEILING)
  /\ (REPLResult.truncated
        (fst (execute_code sample_imports_of echo_interp (sample_request "print(4)") ∅))
      = false
      /\ REPLResult.output
           (fst (execute_code sample_imports_of echo_interp (sample_request "print(4)") ∅))
         = "print(4)").
Proof.
  split.
  - destruct (output_truncation sample_imports_of echo_interp
                (sample_request long_program) ∅) as (_ & Habove & _).
    assert (Hlen : OUTPUT_CEILING
                   < String.length (captured_output sample_imports_of echo_interp
                                      (sample_request long_program) ∅)).
    { apply Nat.ltb_lt. vm_compute. reflexivity. }
    destruct (Habove Hlen) as (Ht & _ & Hl). split; [exact Ht | exact Hl].
  - destruct (output_truncation sample_imports_of echo_interp
                (sample_request "print(4)") ∅) as (_ & _ & Hwithin).
    assert (Hlen : String.length (captured_output sample_imports_of echo_interp
                                    (sample_request "print(4)") ∅)
                   <= OUTPUT_CEILING).
    { apply Nat.leb_le. vm_compute. reflexivity. }
    destruct (Hwithin Hlen) as (Ht & Ho). split; [exact Ht | exact Ho].
Defined.

(** ** Session contexts *)

Section SessionFacts.

Import SessionManager.

Lemma get_or_create_lookup (id : string) (level : TrustLevel) (now : nat)
    (tbl : SessionTable) :
  (get_or_create id level now tbl).2 !! id = Some (get_or_create id level now tbl).1.
Proof.
  unfold get_or_create. destruct (tbl !! id); simpl; apply lookup_insert_eq.
Qed.

Lemma get_or_create_other (id other : string) (level : TrustLevel) (now : nat)
    (tbl : SessionTable) :
  other ≠ id -> (get_or_create id level now tbl).2 !! other = tbl !! other.
Proof.
  intros Hne. unfold get_or_create.
  destruct (tbl !! id); simpl; now apply lookup_insert_ne.
Qed.

Lemma get_or_create_context_known (id : string) (level : TrustLevel) (now : nat)
    (tbl : SessionTable) (s : Session.t) :
  tbl !! id = Some s ->
  Session.context (get_or_create id level now tbl).1 = Session.context s.
Proof. intros H. unfold get_or_create. now rewrite H. Qed.

Lemma set_context_lookup (id key value : string) (now : nat) (tbl : SessionTable) :
  exists s, set_context id key value now tbl !! id = Some s
            /\ Session.context s !! key = Some value.
Proof.
  unfold set_context.
  destruct (get_or_create id DEFAULT_TRUST_LEVEL now tbl) as [s tbl'].
  eexists. split; [apply lookup_insert_eq|].
  simpl. apply lookup_insert_eq.
Qed.

Lemma clear_context_lookup (id : string) (now : nat) (tbl : SessionTable) :
  exists s, clear_context id now tbl !! id = Some s /\ Session.context s = ∅.
Proof.
  unfold clear_context.
  destruct (get_or_create id DEFAULT_TRUST_LEVEL now tbl) as [s tbl'].
  eexists. split; [apply lookup_insert_eq | reflexivity].
Qed.

Lemma clear_context_other (id other : string) (now : nat) (tbl : SessionTable) :
  other ≠ id -> clear_context id now tbl !! other = tbl !! other.
Proof.
  intros Hne. unfold clear_context.
  pose proof (get_or_create_other id other DEFAULT_TRUST_LEVEL now tbl Hne) as H.
  destruct (get_or_create id DEFAULT_TRUST_LEVEL now tbl) as [s tbl'].
  simpl in H. rewrite lookup_insert_ne by congruence. exact H.
Qed.

Lemma set_context_other (id other key value : string) (now : nat)
    (tbl : SessionTable) :
  other ≠ id -> set_context id key value now tbl !! other = tbl !! other.
Proof.
  intros Hne. unfold set_context.
  pose proof (get_or_create_other id other DEFAULT_TRUST_LEVEL now tbl Hne) as H.
  destruct (get_or_create id DEFAULT_TRUST_LEVEL now tbl) as [s tbl'].
  simpl in H. rewrite lookup_insert_ne by congruence. exact H.
Qed.

Lemma get_context_known (id : string) (now : nat) (tbl : SessionTable)
    (s : Session.t) :
  tbl !! id = Some s -> (get_context id now tbl).1 = Session.context s.
Proof.
  intros H. unfold get_context.
  pose proof (get_or_create_context_known id DEFAULT_TRUST_LEVEL now tbl s H) as Hc.
  destruct (get_or_create id DEFAULT_TRUST_LEVEL now tbl) as [s' tbl'].
  exact Hc.
Qed.

End SessionFacts.

Example get_context_fresh :
  (get_repl_context (GetREPLContextParams.mk None) 7 ∅).1 = ∅.
Proof. reflexivity. Qed.

(** C7. [set_context] with key [k] and value [v], followed by [get_context]
    on the same session, returns a mapping with [k] bound to [v];
    [clear_context] leaves the session with no key at all, and every other
    session, its context included, as it was. *)
Theorem context_set_get_clear (tbl : SessionTable)
    (ps : SetREPLContextParams.t) (pg : GetREPLContextParams.t)
    (pc : ClearREPLContextParams.t) (t1 t2 : nat) :
  (resolve_session (GetREPLContextParams.session_id pg)
   = resolve_session (SetREPLContextParams.session_id ps) ->
   (get_repl_context pg t2 (set_repl_context ps t1 tbl)).1
     !! SetREPLContextParams.key ps
   = Some (SetREPLContextParams.value ps))
  /\ (resolve_session (GetREPLContextParams.session_id pg)
      = resolve_session (ClearREPLContextParams.session_id pc) ->
      (get_repl_context pg t2 (clear_repl_context pc t1 tbl)).1 = ∅)
  /\ SessionManager.context_of
       (resolve_session (ClearREPLContextParams.session_id pc))
       (clear_repl_context pc t1 tbl) = Some ∅
  /\ (forall other : string,
        other ≠ resolve_session (ClearREPLContextParams.session_id pc) ->
        clear_repl_context pc t1 tbl !! other = tbl !! other
        /\ SessionManager.context_of other (clear_repl_context pc t1 tbl)
           = SessionManager.context_of other tbl).
Proof.
  unfold get_repl_context, set_repl_context, clear_repl_context.
  split; [|split; [|split]].
  - intros ->.
    destruct (set_context_lookup
                (resolve_session (SetREPLContextParams.session_id ps))
                (SetREPLContextParams.key ps) (SetREPLContextParams.value ps)
                t1 tbl) as (s & Hs & Hk).
    now rewrite (get_context_known _ t2 _ s Hs).
  - intros ->.
    destruct (clear_context_lookup
                (resolve_session (ClearREPLContextParams.session_id pc)) t1 tbl)
      as (s & Hs & Hc).
    now rewrite (get_context_known _ t2 _ s Hs).
  - destruct (clear_context_lookup
                (resolve_session (ClearREPLContextParams.session_id pc)) t1 tbl)
      as (s & Hs & Hc).
    unfold SessionManager.context_of. rewrite Hs. simpl. now rewrite Hc.
  - intros other Hne.
    pose proof (clear_context_other _ other t1 tbl Hne) as H.
    split; [exact H|]. unfold SessionManager.context_of. now rewrite H.
Qed.

Lemma context_set_get_clear_witness :
  (get_repl_context (GetREPLContextParams.mk None) 2
     (set_repl_context (SetREPLContextParams.mk "x" "5" None) 1 sample_table)).1
    !! "x" = Some "5"
  /\ (get_repl_context (GetREPLContextParams.mk (Some "default")) 2
        (clear_repl_context (ClearREPLContextParams.mk None) 1 sample_table)).1 = ∅
  /\ SessionManager.context_of "other"
       (clear_repl_context (ClearREPLContextParams.mk None) 1 sample_table)
     = SessionManager.context_of "other" sample_table.
Proof.
  destruct (context_set_get_clear sample_table
              (SetREPLContextParams.mk "x" "5" None)
              (GetREPLContextParams.mk None)
              (ClearREPLContextParams.mk None) 1 2) as (Hset & _ & _ & _).
  destruct (context_set_get_clear sample_table
              (SetREPLContextParams.mk "x" "5" None)
              (GetREPLContextParams.mk (Some "default"))
              (ClearREPLContextParams.mk None) 1 2) as (_ & Hclear & _ & Hother).
  split; [exact (Hset eq_refl)|]. split; [exact (Hclear eq_refl)|].
  assert (Hne : "other" ≠ resolve_session
                            (ClearREPLContextParams.session_id
                               (ClearREPLContextParams.mk None)))
    by discriminate.
  exact (proj2 (Hother "other" Hne)).
Defined.

(** ** The dispatch loop *)

Lemma round_trips_snoc (tr : list TrajectoryEvent) (e : TrajectoryEvent) :
  round_trips (tr ++ [e]) = round_trips tr + (if is_tool_dispatch e then 1 else 0).
Proof.
  unfold round_trips. rewrite List.filter_app, length_app. simpl.
  now destruct (is_tool_dispatch e).
Qed.

Lemma model_calls_snoc (tr : list TrajectoryEvent) (e : TrajectoryEvent) :
  model_calls (tr ++ [e]) = model_calls tr + (if is_model_exchange e then 1 else 0).
Proof.
  unfold model_calls. rewrite List.filter_app, length_app. simpl.
  now destruct (is_model_exchange e).
Qed.

Lemma last_model_text_snoc (conv : list Message) (m : Message) :
  last_model_text (conv ++ [m])
  = latest_text (last_model_text conv) m.
Proof. unfold last_model_text. rewrite fold_left_app. reflexivity. Qed.

Lemma last_model_text_tools (conv : list Message)
    (rs : list (ToolCall * ToolResult)) :
  last_model_text (conv ++ map (fun cr => ToolMessage (fst cr) (snd cr)) rs)
  = last_model_text conv.
Proof.
  unfold last_model_text. rewrite fold_left_app.
  generalize (fold_left latest_text conv "").
  induction rs as [|cr rs IH]; intros acc; simpl; [reflexivity | apply IH].
Qed.

Lemma responses_snoc (conv : list Message) (m : Message) :
  responses (conv ++ [m]) = responses conv ++ response_of m.
Proof.
  unfold responses. rewrite flat_map_app. simpl. now rewrite app_nil_r.
Qed.

Lemma responses_tools (conv : list Message) (rs : list (ToolCall * ToolResult)) :
  responses (conv ++ map (fun cr => ToolMessage (fst cr) (snd cr)) rs)
  = responses conv.
Proof.
  unfold responses. rewrite flat_map_app.
  assert (H : flat_map response_of
                (map (fun cr => ToolMessage (fst cr) (snd cr)) rs) = []).
  { induction rs as [|cr rs IH]; simpl; [reflexivity | exact IH]. }
  rewrite H. apply app_nil_r.
Qed.

Lemma exchanges_snoc (tr : list TrajectoryEvent) (e : TrajectoryEvent) :
  exchanges (tr ++ [e]) = exchanges tr ++ exchange_of e.
Proof.
  unfold exchanges. rewrite flat_map_app. simpl. now rewrite app_nil_r.
Qed.

Section OrchestratorFacts.

Context {W : Type}.
Variable model : list Message -> ModelResponse.
Variable model_usage : list Message -> Usage.
Variable dispatch : ToolCall -> W -> ToolResult * W.
Variable tool_tokens : ToolCall -> nat.
Variable result_var : W -> option string.
Variable cancel_requested : nat -> bool.
Variable budget : Budget.
Variable run_id : string.

Local Abbreviation do_step :=
  (step model model_usage dispatch tool_tokens result_var cancel_requested
     budget run_id).
Local Abbreviation loop :=
  (run_loop model model_usage dispatch tool_tokens result_var cancel_requested
     budget run_id).
Local Abbreviation faithful := (log_faithful model).
Local Abbreviation halt := (stop result_var run_id).
Local Abbreviation in_budget := (within_budget budget).
Local Abbreviation good_result := (result_ok result_var).
Local Abbreviation left_over := (remaining budget).

(** Case analysis on one transition of the loop. *)
Ltac step_cases st :=
  unfold step;
  destruct (state st) as [|calls|status res] eqn:Estate;
  [ destruct (cancel_requested (length (trajectory st))) eqn:Ecancel;
    [ | destruct (model_call_allowed model_usage budget st) eqn:Eallowed; cbn [negb];
        [ destruct (tool_calls (model (conversation st))) as [|c cs] eqn:Ecalls | ] ]
  | destruct (cancel_requested (length (trajectory st))) eqn:Ecancel;
    [ | destruct (dispatch_allowed tool_tokens budget calls st) eqn:Eallowed; cbn [negb];
        [ destruct (dispatch_all dispatch calls (world st)) as [rs w'] eqn:Edisp | ] ]
  | ].

Lemma step_terminal (st : Run) :
  is_terminal (state st) = true -> do_step st = st.
Proof.
  unfold step. destruct (state st); simpl; congruence.
Qed.

Lemma run_loop_terminal (n : nat) (st : Run) :
  is_terminal (state st) = true -> loop n st = st.
Proof.
  revert st. induction n as [|n IH]; intros st Ht; simpl; [reflexivity|].
  rewrite (step_terminal st Ht). now apply IH.
Qed.

Lemma run_loop_snoc (n : nat) (st : Run) :
  loop (S n) st = do_step (loop n st).
Proof.
  revert st. induction n as [|n IH]; intros st; [reflexivity|].
  change (loop (S (S n)) st) with (loop (S n) (do_step st)).
  rewrite IH. reflexivity.
Qed.

Lemma step_remaining (st : Run) :
  is_terminal (state st) = false -> left_over (do_step st) < left_over st.
Proof.
  intros Hnt. unfold remaining at 2. step_cases st;
    try discriminate; unfold remaining; simpl; try lia.
  unfold dispatch_allowed in Eallowed. apply andb_prop in Eallowed.
  destruct Eallowed as [Hd _]. apply Nat.leb_le in Hd. lia.
Qed.

Lemma run_loop_terminates (fuel : nat) (st : Run) :
  left_over st <= fuel -> is_terminal (state (loop fuel st)) = true.
Proof.
  revert st. induction fuel as [|fuel IH]; intros st Hfuel.
  - simpl. unfold remaining in Hfuel.
    destruct (state st); simpl in *; first [reflexivity | lia].
  - simpl. destruct (is_terminal (state st)) eqn:Ht.
    + rewrite (step_terminal st Ht), (run_loop_terminal fuel st Ht). exact Ht.
    + apply IH. pose proof (step_remaining st Ht). lia.
Qed.

Lemma step_within_budget (st : Run) :
  in_budget st -> in_budget (do_step st).
Proof.
  intros (Hd & Hr & Hm & Ht & Hc & Hk).
  step_cases st; unfold within_budget; simpl;
    rewrite ?round_trips_snoc, ?model_calls_snoc; simpl;
    rewrite ?Estate in *;
    try (unfold model_call_allowed in Eallowed; apply andb_prop in Eallowed;
         destruct Eallowed as [Ea1 Ea2]; apply Nat.leb_le in Ea1, Ea2);
    try (unfold dispatch_allowed in Eallowed; apply andb_prop in Eallowed;
         destruct Eallowed as [Ea1 Ea2]; apply andb_prop in Ea2;
         destruct Ea2 as [Ea2 Ea3]; apply Nat.leb_le in Ea1, Ea2, Ea3);
    repeat split; lia.
Qed.

Lemma run_loop_within_budget (n : nat) (st : Run) :
  in_budget st -> in_budget (loop n st).
Proof.
  revert st. induction n as [|n IH]; intros st H; simpl; [exact H|].
  apply IH. now apply step_within_budget.
Qed.

Lemma initial_within_budget (task : string) (w : W) :
  in_budget (initial task w).
Proof.
  unfold within_budget, initial, round_trips, model_calls. simpl.
  repeat split; lia.
Qed.

Lemma make_result_forced (ok : bool) (st : Run) :
  AgentResult.iterations (make_result result_var run_id true ok st) = depth st
  /\ AgentResult.forced_termination (make_result result_var run_id true ok st) = true
  /\ AgentResult.answer (make_result result_var run_id true ok st)
     = (best_answer result_var st).1
  /\ AgentResult.answer_source (make_result result_var run_id true ok st) = "forced".
Proof.
  unfold make_result. destruct (best_answer result_var st) as [ans src].
  simpl. tauto.
Qed.

Lemma make_result_unforced (ok : bool) (st : Run) :
  AgentResult.iterations (make_result result_var run_id false ok st) = depth st
  /\ AgentResult.forced_termination (make_result result_var run_id false ok st) = false.
Proof.
  unfold make_result. destruct (best_answer result_var st) as [ans src].
  simpl. tauto.
Qed.

Lemma stop_result_ok (status : Ending) (forced ok : bool)
    (ev : list TrajectoryEvent) (st : Run) :
  good_result (halt status forced ok ev st).
Proof.
  unfold result_ok, stop. cbn [state depth].
  unfold best_answer. cbn [world partial].
  fold (best_answer result_var st).
  destruct forced.
  - destruct (make_result_forced ok st) as (Hi & _ & Ha & Hs). tauto.
  - destruct (make_result_unforced ok st) as (Hi & Hf).
    split; [exact Hi|]. rewrite Hf. discriminate.
Qed.

Lemma step_result_ok (st : Run) : good_result st -> good_result (do_step st).
Proof.
  intros H. step_cases st; try apply stop_result_ok.
  - unfold result_ok. simpl. exact I.
  - unfold result_ok. simpl. exact I.
  - exact H.
Qed.

Lemma run_loop_result_ok (n : nat) (st : Run) :
  good_result st -> good_result (loop n st).
Proof.
  revert st. induction n as [|n IH]; intros st H; simpl; [exact H|].
  apply IH. now apply step_result_ok.
Qed.

Lemma step_only_forced (st : Run) :
  (forall conv, tool_calls (model conv) <> []) ->
  (forall n, cancel_requested n = false) ->
  only_forced st -> only_forced (do_step st).
Proof.
  intros Hgreedy Hnocancel H. step_cases st;
    try (rewrite Hnocancel in Ecancel; discriminate);
    try (exfalso; apply (Hgreedy _ Ecalls));
    try (unfold only_forced, stop; cbn [state];
         apply (make_result_forced false st));
    try (unfold only_forced; simpl; exact I).
  exact H.
Qed.

Lemma run_loop_only_forced (n : nat) (st : Run) :
  (forall conv, tool_calls (model conv) <> []) ->
  (forall n, cancel_requested n = false) ->
  only_forced st -> only_forced (loop n st).
Proof.
  intros Hg Hc. revert st. induction n as [|n IH]; intros st H; simpl; [exact H|].
  apply IH. now apply step_only_forced.
Qed.

Lemma run_loop_add (a b : nat) (st : Run) :
  loop (a + b) st = loop b (loop a st).
Proof.
  revert st. induction a as [|a IH]; intros st; simpl; [reflexivity|].
  apply IH.
Qed.

(** A dispatch that would pass the depth ceiling is not made: the loop
    stops, forced, with the world and the conversation as they were. *)
Lemma step_preempts_dispatch (st : Run) (calls : list ToolCall) :
  state st = awaiting_tools calls ->
  cancel_requested (length (trajectory st)) = false ->
  max_depth budget < depth st + 1 ->
  exists r,
    outcome (do_step st) = Some r
    /\ AgentResult.forced_termination r = true
    /\ world (do_step st) = world st
    /\ conversation (do_step st) = conversation st
    /\ round_trips (trajectory (do_step st)) = round_trips (trajectory st).
Proof.
  intros Hs Hc Hd. unfold step. rewrite Hs, Hc.
  assert (Hna : dispatch_allowed tool_tokens budget calls st = false).
  { unfold dispatch_allowed. apply andb_false_intro1. apply Nat.leb_gt. lia. }
  rewrite Hna. cbn [negb]. eexists. unfold outcome, stop. cbn [state].
  split; [reflexivity|]. split; [apply (make_result_forced false st)|].
  cbn [world conversation trajectory]. rewrite round_trips_snoc. simpl.
  repeat split. lia.
Qed.

Lemma make_result_totals (forced ok : bool) (st : Run) :
  AgentResult.total_tokens (make_result result_var run_id forced ok st)
  = tokens_used st
  /\ AgentResult.total_cost (make_result result_var run_id forced ok st)
     = cost_used st.
Proof.
  unfold make_result. destruct (best_answer result_var st) as [ans src].
  simpl. tauto.
Qed.

Lemma step_totals_ok (st : Run) : totals_ok st -> totals_ok (do_step st).
Proof.
  intros H. step_cases st;
    try (unfold totals_ok, stop; cbn [state tokens_used cost_used];
         apply make_result_totals);
    try (unfold totals_ok; simpl; exact I).
  exact H.
Qed.

Lemma run_loop_totals_ok (n : nat) (st : Run) :
  totals_ok st -> totals_ok (loop n st).
Proof.
  revert st. induction n as [|n IH]; intros st H; simpl; [exact H|].
  apply IH. now apply step_totals_ok.
Qed.

Lemma answers_of_model_app (pre l1 l2 : list Message) :
  answers_of_model model pre (l1 ++ l2)
  <-> answers_of_model model pre l1 /\ answers_of_model model (pre ++ l1) l2.
Proof.
  revert pre. induction l1 as [|m l1 IH]; intros pre.
  - simpl. rewrite app_nil_r. tauto.
  - replace (pre ++ m :: l1) with ((pre ++ [m]) ++ l1)
      by now rewrite <- app_assoc.
    destruct m; simpl; rewrite IH; tauto.
Qed.

Lemma answers_of_model_tools (pre : list Message)
    (rs : list (ToolCall * ToolResult)) :
  answers_of_model model pre (map (fun cr => ToolMessage (fst cr) (snd cr)) rs).
Proof.
  revert pre. induction rs as [|cr rs IH]; intros pre; simpl; [exact I | apply IH].
Qed.

(** A model message anywhere in a conversation that satisfies
    [answers_of_model] is the model's answer to what stands before it. *)
Lemma answers_of_model_at (p l a b : list Message) (r : ModelResponse) :
  answers_of_model model p l -> l = a ++ ModelMessage r :: b ->
  r = model (p ++ a).
Proof.
  revert p l. induction a as [|m a IH]; intros p l Hl ->.
  - simpl in Hl. rewrite app_nil_r. exact (proj1 Hl).
  - replace (p ++ m :: a) with ((p ++ [m]) ++ a) by now rewrite <- app_assoc.
    apply (IH (p ++ [m]) (a ++ ModelMessage r :: b)); [|reflexivity].
    destruct m; simpl in Hl; [exact Hl | exact (proj2 Hl) | exact Hl].
Qed.

Lemma step_log_faithful (st : Run) : faithful st -> faithful (do_step st).
Proof.
  intros (Hp & He & Ha).
  step_cases st; unfold log_faithful, stop;
    cbn [partial conversation trajectory];
    rewrite ?exchanges_snoc, ?responses_snoc, ?last_model_text_snoc,
            ?last_model_text_tools, ?responses_tools;
    cbn [exchange_of response_of latest_text];
    rewrite ?app_nil_r, ?He;
    try (split; [reflexivity || exact Hp | split; [reflexivity|]]);
    try exact Ha;
    try (apply answers_of_model_app; split;
         [exact Ha | first [ apply answers_of_model_tools
                           | simpl; split; [reflexivity | exact I] ]]).
Qed.

Lemma run_loop_log_faithful (n : nat) (st : Run) :
  faithful st -> faithful (loop n st).
Proof.
  revert st. induction n as [|n IH]; intros st H; simpl; [exact H|].
  apply IH. now apply step_log_faithful.
Qed.

Lemma initial_log_faithful (task : string) (w : W) :
  faithful (initial task w).
Proof.
  unfold log_faithful, initial. simpl.
  split; [reflexivity | split; [reflexivity | exact I]].
Qed.

End OrchestratorFacts.

Example greedy_run_is_forced :
  outcome (agent_run greedy_model flat_usage sample_dispatch flat_tool_tokens
             no_result_var never_cancelled sample_budget "run-1" "task" tt)
  = Some (AgentResult.mk "working" "forced" 2 36 3 17 true "run-1" false).
Proof. vm_compute. reflexivity. Qed.

Example direct_run_is_final :
  outcome (agent_run direct_model flat_usage sample_dispatch flat_tool_tokens
             no_result_var never_cancelled sample_budget "run-2" "2 + 2" tt)
  = Some (AgentResult.mk "4" "final" 0 10 1 5 false "run-2" true).
Proof. vm_compute. reflexivity. Qed.

Example greedy_run_trajectory :
  map is_tool_dispatch
    (trajectory (agent_run greedy_model flat_usage sample_dispatch flat_tool_tokens
                   no_result_var never_cancelled sample_budget "run-1" "task" tt))
  = [false; true; false; true; false; false].
Proof. vm_compute. reflexivity. Qed.

(** A token budget too small for the first model call: the call is not
    made and nothing is charged. *)
Example tight_token_budget_is_not_passed :
  outcome (agent_run greedy_model flat_usage sample_dispatch flat_tool_tokens
             no_result_var never_cancelled (mkBudget 2 5 100 1000) "run-3" "task" tt)
  = Some (AgentResult.mk "" "forced" 0 0 0 0 true "run-3" false).
Proof. vm_compute. reflexivity. Qed.



(** * Further properties of the SDK's functions *)

(** ** Shape of the names [isImportAllowed] accepts *)

Lemma names_walk_true_In (blocked allowed names : list string) :
  names_walk blocked allowed names = true ->
  exists p, In p names /\ Js.includes allowed p = true.
Proof.
  induction names as [|q rest IH]; simpl; [discriminate|].
  destruct (Js.includes blocked q); [discriminate|].
  destruct (Js.includes allowed q) eqn:Ea.
  - intros _. exists q. split; [now left | exact Ea].
  - intros H. destruct (IH H) as (p & Hin & Hp). exists p. split; [now right | exact Hp].
Qed.

Lemma names_walk_app_decided (blocked allowed l1 l2 : list string) (q : string) :
  In q l1 -> Js.includes blocked q || Js.includes allowed q = true ->
  names_walk blocked allowed (l1 ++ l2) = names_walk blocked allowed l1.
Proof.
  induction l1 as [|p l1 IH]; simpl; [tauto|].
  intros [->|Hin] Hq.
  - destruct (Js.includes blocked q); [reflexivity|].
    rewrite orb_false_l in Hq. now rewrite Hq.
  - destruct (Js.includes blocked p); [reflexivity|].
    destruct (Js.includes allowed p); [reflexivity|]. now apply IH.
Qed.

Lemma names_walk_unlisted (blocked allowed names : list string) :
  (forall p, In p names ->
     Js.includes blocked p = false /\ Js.includes allowed p = false) ->
  names_walk blocked allowed names = false.
Proof.
  induction names as [|q rest IH]; intros H; simpl; [reflexivity|].
  destruct (H q (or_introl eq_refl)) as [-> ->].
  apply IH. intros p Hp. apply H. now right.
Qed.

(** An element of the dotted prefixes of [s] is [s] itself or what stands
    before one of its dots. *)
Lemma dotted_prefixes_from_In (s acc p : string) :
  In p (dotted_prefixes_from acc s) ->
  exists s1, p = acc +:+ s1 /\ (s = s1 \/ exists s2, s = s1 +:+ "." +:+ s2).
Proof.
  revert acc. induction s as [|c s IH]; intros acc; simpl.
  - intros [<-|[]]. exists "". split; [now rewrite string_app_empty_r | now left].
  - destruct (Ascii.eqb c ".") eqn:Ec.
    + apply Ascii.eqb_eq in Ec. subst c. intros [<-|Hin].
      * exists "". split; [now rewrite string_app_empty_r|].
        right. exists s. reflexivity.
      * destruct (IH _ Hin) as (s1 & -> & Hs). exists (String "." s1).
        split; [now rewrite string_app_assoc|].
        destruct Hs as [->|(s2 & ->)]; [now left|]. right. exists s2. reflexivity.
    + intros Hin. destruct (IH _ Hin) as (s1 & -> & Hs). exists (String c s1).
      split; [now rewrite string_app_assoc|].
      destruct Hs as [->|(s2 & ->)]; [now left|]. right. exists s2. reflexivity.
Qed.

Lemma dotted_prefixes_self (s : string) : In s (dotted_prefixes s).
Proof. apply (dotted_prefixes_from_whole s ""). Qed.

Lemma allowed_names_no_blocked_prefix :
  forallb (fun a => forallb (fun q => negb (Js.includes BLOCKED_IMPORTS q))
                      (dotted_prefixes a))
    ALLOWED_IMPORTS = true.
Proof. vm_compute. reflexivity. Qed.

Lemma blocked_names_walk :
  forallb (fun b => negb (names_walk BLOCKED_IMPORTS ALLOWED_IMPORTS
                            (dotted_prefixes b)))
    BLOCKED_IMPORTS = true.
Proof. vm_compute. reflexivity. Qed.

Lemma accepted_has_allowed_prefix (m : string) :
  isImportAllowed m = true ->
  exists p, In p ALLOWED_IMPORTS
            /\ (m = p \/ exists rest, m = p +:+ "." +:+ rest).
Proof.
  unfold isImportAllowed. rewrite import_allowed_in_prefixes.
  destruct (Js.includes BLOCKED_IMPORTS m); [discriminate|].
  destruct (Js.includes ALLOWED_IMPORTS m) eqn:Ea.
  - intros _. exists m. split; [now apply includes_In | now left].
  - intros H. apply names_walk_true_In in H. destruct H as (p & Hin & Hp).
    apply includes_In in Hp. exists p. split; [exact Hp|].
    apply dotted_prefixes_from_In in Hin. destruct Hin as (s1 & -> & Hs).
    rewrite string_app_nil_l. exact Hs.
Qed.

(** X1. [isImportAllowed] accepts a name exactly when the name is an entry
    of [ALLOWED_IMPORTS] or continues one after a dot. *)
Theorem accepted_iff_allowed_prefix (m : string) :
  isImportAllowed m = true
  <-> exists p, In p ALLOWED_IMPORTS
                /\ (m = p \/ exists rest, m = p +:+ "." +:+ rest).
Proof.
  split; [apply accepted_has_allowed_prefix|].
  intros (p & Hin & [->|(rest & ->)]).
  - now apply allowed_is_accepted.
  - now apply submodule_is_accepted.
Qed.

Lemma blocked_submodule_is_rejected (b rest : string) :
  In b BLOCKED_IMPORTS -> isImportAllowed (b +:+ "." +:+ rest) = false.
Proof.
  intros Hb. unfold isImportAllowed. rewrite import_allowed_in_prefixes.
  destruct (Js.includes BLOCKED_IMPORTS (b +:+ "." +:+ rest)); [reflexivity|].
  destruct (Js.includes ALLOWED_IMPORTS (b +:+ "." +:+ rest)) eqn:Ea.
  - exfalso. apply includes_In in Ea.
    pose proof allowed_names_no_blocked_prefix as H.
    rewrite forallb_forall in H. specialize (H _ Ea).
    rewrite forallb_forall in H. specialize (H b (dotted_prefixes_parent b rest)).
    apply negb_true_iff in H. apply includes_In in Hb. congruence.
  - unfold dotted_prefixes. rewrite dotted_prefixes_from_dot.
    rewrite (names_walk_app_decided _ _ _ _ b).
    + pose proof blocked_names_walk as H. rewrite forallb_forall in H.
      specialize (H b Hb). now apply negb_true_iff in H.
    + apply (dotted_prefixes_self b).
    + apply includes_In in Hb. now rewrite Hb.
Qed.

(** X2. Every submodule of a blocked module is rejected: for [b] in
    [BLOCKED_IMPORTS] and any continuation, [isImportAllowed] returns
    [false] on [b.rest], as it does on [b]. *)
Theorem blocked_submodule_rejected (b rest : string) :
  In b BLOCKED_IMPORTS ->
  isImportAllowed b = false /\ isImportAllowed (b +:+ "." +:+ rest) = false.
Proof.
  intros Hb. split.
  - now apply blocked_is_rejected.
  - now apply blocked_submodule_is_rejected.
Qed.

Lemma blocked_submodule_rejected_witness :
  isImportAllowed "os" = false /\ isImportAllowed "os.path.join" = false.
Proof.
  apply (blocked_submodule_rejected "os" "path.join"). simpl. tauto.
Defined.

(** X3. The accepted names are closed under going to a submodule: once
    [isImportAllowed] accepts a name it accepts every name that continues
    it after a dot. *)
Theorem accepted_closed_under_submodules (m rest : string) :
  isImportAllowed m = true -> isImportAllowed (m +:+ "." +:+ rest) = true.
Proof.
  intros H. apply accepted_has_allowed_prefix in H.
  destruct H as (p & Hin & [->|(r & ->)]).
  - now apply submodule_is_accepted.
  - rewrite string_app_assoc.
    change ("." +:+ r) with (String "." r). rewrite (string_app_cons "." r).
    now apply (submodule_is_accepted p (r +:+ "." +:+ rest)).
Qed.

Lemma accepted_closed_under_submodules_witness :
  isImportAllowed "collections.abc.Mapping" = true.
Proof.
  apply (accepted_closed_under_submodules "collections.abc" "Mapping").
  vm_compute. reflexivity.
Defined.

(** X4. On the exported lists the two checks of the full name that open
    [isImportAllowed] never change the answer: the function returns what
    its loop over the parent names returns on its own. *)
Theorem full_name_checks_redundant (moduleName : string) :
  isImportAllowed moduleName
  = parent_walk BLOCKED_IMPORTS ALLOWED_IMPORTS (Js.split "." moduleName)
      (seq 0 (length (Js.split "." moduleName))).
Proof.
  rewrite parent_walk_names. fold (parent_names (Js.split "." moduleName)).
  rewrite parent_names_split.
  unfold isImportAllowed. rewrite import_allowed_in_prefixes.
  destruct (Js.includes BLOCKED_IMPORTS moduleName) eqn:Eb.
  - apply includes_In in Eb. pose proof blocked_names_walk as H.
    rewrite forallb_forall in H. specialize (H _ Eb).
    apply negb_true_iff in H. now rewrite H.
  - destruct (Js.includes ALLOWED_IMPORTS moduleName) eqn:Ea; [|reflexivity].
    apply includes_In in Ea. pose proof allowed_names_walk as H.
    rewrite forallb_forall in H. now rewrite (H _ Ea).
Qed.

(** ** The decision by leading components *)

Lemma has_dot_app (a b : string) : has_dot (a +:+ b) = has_dot a || has_dot b.
Proof.
  induction a as [|c a IH]; [reflexivity|].
  rewrite string_app_cons. simpl. now rewrite IH, orb_assoc.
Qed.

Lemma has_dot_dotted (a b : string) : has_dot (a +:+ "." +:+ b) = true.
Proof.
  rewrite has_dot_app. change ("." +:+ b) with (String "." b). simpl.
  apply orb_true_r.
Qed.

Lemma split_dot_free (s : string) :
  Forall (fun p => has_dot p = false) (Js.split "." s).
Proof.
  induction s as [|c s IH]; simpl.
  - repeat constructor.
  - destruct (Ascii.eqb c ".") eqn:Ec.
    + constructor; [reflexivity | exact IH].
    + destruct (Js.split "." s) as [|x l]; [repeat constructor; simpl; now rewrite Ec|].
      inversion IH as [|? ? Hx Hl]; subst. constructor; [|exact Hl].
      simpl. now rewrite Ec, Hx.
Qed.

(** A string is cut at its first dot in one way only. *)
Lemma first_dot_unique (c1 c2 q1 q2 : string) :
  has_dot c1 = false -> has_dot c2 = false ->
  c1 +:+ "." +:+ q1 = c2 +:+ "." +:+ q2 -> c1 = c2 /\ q1 = q2.
Proof.
  revert c2. induction c1 as [|a c1 IH]; intros c2 H1 H2 Heq.
  - destruct c2 as [|b c2].
    + rewrite !string_app_nil_l in Heq.
      change (String "." q1 = String "." q2) in Heq.
      split; [reflexivity | congruence].
    + rewrite string_app_nil_l, string_app_cons in Heq.
      change (String "." q1 = String b (c2 +:+ "." +:+ q2)) in Heq.
      injection Heq as Hb _. subst b. simpl in H2. discriminate.
  - destruct c2 as [|b c2].
    + rewrite string_app_nil_l, string_app_cons in Heq.
      change (String a (c1 +:+ "." +:+ q1) = String "." q2) in Heq.
      injection Heq as Ha _. subst a. simpl in H1. discriminate.
    + rewrite !string_app_cons in Heq. injection Heq as -> Heq.
      simpl in H1, H2. apply orb_false_elim in H1, H2.
      destruct (IH c2 (proj2 H1) (proj2 H2) Heq) as [-> ->]. now split.
Qed.

(** The only listed names with a dot in them. *)
Lemma listed_with_dot (x : string) :
  Js.includes BLOCKED_IMPORTS x || Js.includes ALLOWED_IMPORTS x = true ->
  has_dot x = true ->
  x = "urllib.parse" \/ x = "urllib.request".
Proof.
  intros Hl Hd. apply orb_prop in Hl.
  destruct Hl as [Hl|Hl]; apply includes_In in Hl; simpl in Hl;
    repeat (destruct Hl as [Hl|Hl];
            [subst x; first [discriminate Hd | now left | now right]|]);
    contradiction.
Qed.

Lemma dotted_name_listed (c q : string) :
  has_dot c = false ->
  Js.includes BLOCKED_IMPORTS (c +:+ "." +:+ q)
  || Js.includes ALLOWED_IMPORTS (c +:+ "." +:+ q) = true ->
  c = "urllib" /\ (q = "parse" \/ q = "request").
Proof.
  intros Hc Hl.
  destruct (listed_with_dot _ Hl (has_dot_dotted c q)) as [H|H].
  - destruct (first_dot_unique c "urllib" q "parse" Hc eq_refl H) as [-> ->]. tauto.
  - destruct (first_dot_unique c "urllib" q "request" Hc eq_refl H) as [-> ->]. tauto.
Qed.

Lemma dotted_name_unlisted (c q : string) :
  has_dot c = false ->
  (c = "urllib" -> q <> "parse" /\ q <> "request") ->
  Js.includes BLOCKED_IMPORTS (c +:+ "." +:+ q) = false
  /\ Js.includes ALLOWED_IMPORTS (c +:+ "." +:+ q) = false.
Proof.
  intros Hc Hq. apply orb_false_elim.
  destruct (_ || _) eqn:E; [|reflexivity]. exfalso.
  destruct (dotted_name_listed c q Hc E) as [Hu Hp].
  destruct (Hq Hu) as [H1 H2]. tauto.
Qed.

Lemma names_walk_components (parts : list string) :
  Forall (fun p => has_dot p = false) parts ->
  names_walk BLOCKED_IMPORTS ALLOWED_IMPORTS (parent_names parts)
  = decision_by_components parts.
Proof.
  intros Hfree. destruct parts as [|c rest]; [reflexivity|].
  inversion Hfree as [|? ? Hc Hrest]; subst.
  rewrite parent_names_cons. cbn [names_walk decision_by_components].
  destruct (String.eqb c "urllib") eqn:Eu.
  - apply String.eqb_eq in Eu. subst c.
    change (Js.includes BLOCKED_IMPORTS "urllib") with false.
    change (Js.includes ALLOWED_IMPORTS "urllib") with false. cbv iota.
    destruct rest as [|r rest']; [reflexivity|].
    inversion Hrest as [|? ? Hr Hrest']; subst.
    rewrite parent_names_cons. cbn [map names_walk].
    destruct (String.eqb r "parse") eqn:Ep.
    + apply String.eqb_eq in Ep. subst r. reflexivity.
    + destruct (String.eqb r "request") eqn:Eq.
      * apply String.eqb_eq in Eq. subst r. reflexivity.
      * apply String.eqb_neq in Ep, Eq.
        destruct (dotted_name_unlisted "urllib" r eq_refl) as [-> ->]; [tauto|].
        apply names_walk_unlisted. intros p Hp.
        rewrite map_map in Hp. apply in_map_iff in Hp. destruct Hp as (q & <- & _).
        apply dotted_name_unlisted; [reflexivity|]. intros _.
        split; intros Habs;
          pose proof (has_dot_dotted r q) as Hd; rewrite Habs in Hd; discriminate.
  - apply String.eqb_neq in Eu.
    destruct (Js.includes BLOCKED_IMPORTS c) eqn:Eb.
    + destruct (Js.includes ALLOWED_IMPORTS c) eqn:Ea; [|reflexivity].
      apply includes_In in Ea. apply allowed_not_blocked in Ea. congruence.
    + destruct (Js.includes ALLOWED_IMPORTS c); [reflexivity|].
      apply names_walk_unlisted. intros p Hp.
      apply in_map_iff in Hp. destruct Hp as (q & <- & _).
      apply dotted_name_unlisted; [exact Hc | tauto].
Qed.

(** X5. On the exported lists the answer of [isImportAllowed] is read off
    the first components of the name: a name under [urllib] is accepted
    exactly when its second component is [parse]; any other name is
    accepted exactly when its first component is an entry of
    [ALLOWED_IMPORTS]. *)
Theorem decision_by_leading_components (moduleName : string) :
  isImportAllowed moduleName
  = decision_by_components (Js.split "." moduleName).
Proof.
  unfold isImportAllowed. rewrite import_allowed_in_prefixes.
  rewrite <- names_walk_components by apply split_dot_free.
  rewrite parent_names_split.
  destruct (Js.includes BLOCKED_IMPORTS moduleName) eqn:Eb.
  - apply includes_In in Eb. pose proof blocked_names_walk as H.
    rewrite forallb_forall in H. specialize (H _ Eb).
    apply negb_true_iff in H. now rewrite H.
  - destruct (Js.includes ALLOWED_IMPORTS moduleName) eqn:Ea; [|reflexivity].
    apply includes_In in Ea. pose proof allowed_names_walk as H.
    rewrite forallb_forall in H. now rewrite (H _ Ea).
Qed.

Example decision_urllib_parse :
  decision_by_components (Js.split "." "urllib.parse.quote") = true.
Proof. reflexivity. Qed.

Example decision_urllib_error :
  decision_by_components (Js.split "." "urllib.error") = false.
Proof. reflexivity. Qed.

(** X6. The empty name and every name that starts with a dot (a relative
    import) are rejected. *)
Theorem empty_and_relative_rejected (rest : string) :
  isImportAllowed "" = false /\ isImportAllowed (String "." rest) = false.
Proof.
  split; [reflexivity|].
  unfold isImportAllowed. rewrite import_allowed_in_prefixes.
  rewrite <- parent_names_split, names_walk_components by apply split_dot_free.
  assert (Hb : Js.includes BLOCKED_IMPORTS (String "." rest) = false) by reflexivity.
  assert (Ha : Js.includes ALLOWED_IMPORTS (String "." rest) = false) by reflexivity.
  rewrite Hb, Ha. reflexivity.
Qed.

(** ** Splitting and joining *)

Lemma join_split (s : string) : Js.join "." (Js.split "." s) = s.
Proof.
  induction s as [|c s IH]; [reflexivity|]. simpl.
  pose proof (split_not_nil "." s) as Hne.
  destruct (Ascii.eqb c ".") eqn:Ec.
  - apply Ascii.eqb_eq in Ec. subst c.
    destruct (Js.split "." s) as [|x l]; [congruence|].
    rewrite join_cons_cons, IH. reflexivity.
  - destruct (Js.split "." s) as [|x l]; [congruence|].
    destruct l as [|y l].
    + simpl in *. now rewrite IH.
    + rewrite join_cons_cons, string_app_cons. rewrite join_cons_cons in IH.
      now rewrite IH.
Qed.

(** X7. Joining the parts of a split name with dots gives the name back,
    so the last parent name the loop of [isImportAllowed] builds (index
    [parts.length - 1]) is the module name itself; and no part contains a
    dot. *)
Theorem split_join_round_trip (moduleName : string) :
  Js.join "." (Js.split "." moduleName) = moduleName
  /\ Js.join "."
       (Js.slice0 ((length (Js.split "." moduleName) - 1) + 1)
          (Js.split "." moduleName))
     = moduleName
  /\ Forall (fun p => has_dot p = false) (Js.split "." moduleName).
Proof.
  split; [apply join_split|]. split; [|apply split_dot_free].
  pose proof (split_not_nil "." moduleName) as Hne.
  assert (Hlen : length (Js.split "." moduleName) - 1 + 1
                 = length (Js.split "." moduleName)).
  { destruct (Js.split "." moduleName); [congruence | simpl; lia]. }
  rewrite Hlen. unfold Js.slice0. rewrite firstn_all. apply join_split.
Qed.

(** ** Tool names, profiles and the default configuration *)

(** X8. [MCP_TOOLS] has nine properties whose keys are pairwise distinct
    and whose values, the tool names, are pairwise distinct as well: a
    tool name of type [MCPToolName] belongs to exactly one key. *)
Theorem mcp_tool_names_distinct :
  length MCP_TOOLS = 9
  /\ List.NoDup (map fst MCP_TOOLS)
  /\ List.NoDup (map snd MCP_TOOLS)
  /\ forall s, is_MCPToolName s = true <-> exists k, In (k, s) MCP_TOOLS.
Proof.
  split; [reflexivity|]. split; [|split].
  - simpl. repeat (constructor; [simpl; intuition discriminate|]). constructor.
  - simpl. repeat (constructor; [simpl; intuition discriminate|]). constructor.
  - intros s. unfold is_MCPToolName. rewrite includes_In, in_map_iff. split.
    + intros ([k v] & Hs & Hin). simpl in Hs. subst v. now exists k.
    + intros (k & Hin). now exists (k, s).
Qed.

(** X9. Along the declaration order quick, default, analysis, extended the
    profiles returned by [getProfile] strictly grow in both timeout and
    memory, and no profile's timeout exceeds
    [DEFAULT_CONFIG.timeout_seconds]. *)
Theorem profiles_strictly_ordered (a b : ExecutionProfile) :
  profile_rank a < profile_rank b ->
  exists ca cb ma mb,
    getProfile a = Some ca /\ getProfile b = Some cb
    /\ memory_megabytes (memory ca) = Some ma
    /\ memory_megabytes (memory cb) = Some mb
    /\ timeout ca < timeout cb
    /\ ma < mb
    /\ timeout cb <= RLMConfig.timeout_seconds DEFAULT_CONFIG.
Proof.
  intros Hlt.
  destruct a, b; simpl in Hlt; try lia;
    do 4 eexists;
    (split; [vm_compute; reflexivity|]);
    (split; [vm_compute; reflexivity|]);
    (split; [vm_compute; reflexivity|]);
    (split; [vm_compute; reflexivity|]);
    simpl; lia.
Qed.

Lemma profiles_strictly_ordered_witness :
  exists ca cb ma mb,
    getProfile Quick = Some ca /\ getProfile Extended = Some cb
    /\ memory_megabytes (memory ca) = Some ma
    /\ memory_megabytes (memory cb) = Some mb
    /\ timeout ca < timeout cb
    /\ ma < mb
    /\ timeout cb <= RLMConfig.timeout_seconds DEFAULT_CONFIG.
Proof.
  apply (profiles_strictly_ordered Quick Extended). simpl. lia.
Defined.
